(** * lib/util.c of xbps: identifier parsing, digests, locations, configuration

    A shallow embedding of the utility routines of [lib/util.c] and the
    properties its specification states about them.

    Conventions of the embedding.
    - A C string (the characters before the terminating NUL) is a [string];
      a pointer into a C string is the suffix it points at; a possibly-NULL
      [char *] is an [option string].
    - [int] results are [Z]; [size_t] arithmetic is [Z] modulo [2^64].
    - The allocator, the operating system, the property-list store and the
      SHA-256 primitive are explicit arguments of the functions that call
      them; so are the constants of headers that are not part of the file
      ([PATH_MAX], [XBPS_CACHE_PATH], [XBPS_PKG_STATE_INSTALLED], the
      [errno] values).
    - The configuration keeps pointers, not texts: a pointer the caller
      hands to it is a [Config.strptr], which tells a string of the caller
      from the two static buffers the cache directory is formatted into,
      and the text behind a pointer is read from the state at the time of
      the read. *)

From Stdlib Require Import ZArith Ascii String List Lia.
From Stdlib.Strings Require Import Byte.
From stdpp Require Import base option gmap strings.

Local Open Scope string_scope.

(** ** The C library functions the file relies on *)

Module CStr.

Definition NUL : ascii := Ascii.zero.

(** A character read as [unsigned char]. *)
Definition uchar (c : ascii) : Z := Z.of_nat (nat_of_ascii c).

Definition strlen (s : string) : nat := String.length s.

(** [strrchr s c]: the suffix of [s] at the last [c]; the terminator is
    part of the string, so [strrchr s NUL] points at the end. *)
Fixpoint strrchr (s : string) (c : ascii) : option string :=
  match s with
  | EmptyString => if Ascii.eqb c NUL then Some EmptyString else None
  | String a r =>
      match strrchr r c with
      | Some t => Some t
      | None => if Ascii.eqb a c then Some s else None
      end
  end.

(** Whether [c] is one of the characters of [accept] (terminator excluded). *)
Fixpoint in_set (c : ascii) (accept : string) : bool :=
  match accept with
  | EmptyString => false
  | String a r => Ascii.eqb a c || in_set c r
  end.

(** [strpbrk s accept]: the suffix of [s] at its first character that
    belongs to [accept]. *)
Fixpoint strpbrk (s accept : string) : option string :=
  match s with
  | EmptyString => None
  | String a r => if in_set a accept then Some s else strpbrk r accept
  end.

(** The first [n] characters of [s]. *)
Fixpoint take (n : nat) (s : string) : string :=
  match n, s with
  | S n', String a r => String a (take n' r)
  | _, _ => EmptyString
  end.

(** [strlcpy dst src size]: the content of [dst] afterwards; at most
    [size - 1] characters are copied, and nothing is written for
    [size = 0]. *)
Definition strlcpy (dst src : string) (size : nat) : string :=
  match size with
  | O => dst
  | S n => take n src
  end.

(** [strcmp], comparing as [unsigned char]; the end of a string is its
    terminator, which reads as 0. *)
Fixpoint strcmp (s1 s2 : string) : Z :=
  match s1, s2 with
  | EmptyString, EmptyString => 0
  | EmptyString, String c _ => (0 - uchar c)%Z
  | String c _, EmptyString => uchar c
  | String c1 r1, String c2 r2 =>
      if Ascii.eqb c1 c2 then strcmp r1 r2 else (uchar c1 - uchar c2)%Z
  end.

(** [strncmp s1 s2 n]: as [strcmp], over at most [n] characters. *)
Fixpoint strncmp (s1 s2 : string) (n : nat) {struct n} : Z :=
  match n with
  | O => 0%Z
  | S n' =>
      match s1, s2 with
      | EmptyString, EmptyString => 0%Z
      | EmptyString, String c _ => (0 - uchar c)%Z
      | String c _, EmptyString => uchar c
      | String c1 r1, String c2 r2 =>
          if Ascii.eqb c1 c2 then strncmp r1 r2 n'
          else (uchar c1 - uchar c2)%Z
      end
  end.

Definition INT_MAX : Z := 2 ^ 31 - 1.

(** [snprintf buf size "%s/%s" a b]: the value returned (the length of the
    whole output, or [-1] when it does not fit an [int]) and the content of
    [buf] afterwards, which is cut after [size - 1] characters. *)
Definition snprintf_path (buf : string) (size : Z) (a b : string) : Z * string :=
  let out := a +:+ "/" +:+ b in
  let n := Z.of_nat (strlen out) in
  if (INT_MAX <? n)%Z then ((-1)%Z, buf)
  else (n, if (size <=? 0)%Z then buf else take (Z.to_nat (size - 1)) out).

(** ** Occurrences of a character *)

(** [c] occurs in [s]. *)
Definition occurs (c : ascii) (s : string) : Prop :=
  exists pre suf, s = pre +:+ String c suf.

(** Some character of [accept] occurs in [s]. *)
Definition occurs_any (accept s : string) : Prop :=
  exists c, in_set c accept = true /\ occurs c s.

(** [v] is what follows the last [c] of [s]. *)
Definition after_last (c : ascii) (s v : string) : Prop :=
  exists pre, s = pre +:+ String c v /\ ~ occurs c v.

(** [s] starts with [p]. *)
Definition has_prefix (p s : string) : Prop :=
  exists r, s = p +:+ r.

(** A string as C has it: no NUL among its characters. *)
Definition cstring (s : string) : Prop := ~ occurs NUL s.

(** [cstring], decided. *)
Fixpoint no_nul (s : string) : bool :=
  match s with
  | EmptyString => true
  | String a r => negb (Ascii.eqb a NUL) && no_nul r
  end.

(** Every character of [s] is one of [accept]. *)
Fixpoint all_in (s accept : string) : bool :=
  match s with
  | EmptyString => true
  | String a r => in_set a accept && all_in r accept
  end.

(** [n] copies of [c]. *)
Fixpoint replicate (n : nat) (c : ascii) : string :=
  match n with
  | O => EmptyString
  | S n' => String c (replicate n' c)
  end.

End CStr.

(** ** Identifier Grammar Parser and Pattern Splitter *)

Module Ident.
Import CStr.

(** [p + 1] for a pointer [p] into a string. *)
Definition next (p : string) : string :=
  match p with
  | EmptyString => EmptyString
  | String _ r => r
  end.

Definition xbps_get_pkg_epoch (pkg : string) : option string :=
  match strrchr pkg ":" with
  | None => None
  | Some tmp => Some (next tmp)
  end.

Definition xbps_get_pkg_version (pkg : string) : option string :=
  match strrchr pkg "-" with
  | None => None
  | Some tmp => Some (next tmp)
  end.

Definition xbps_get_pkg_revision (pkg : string) : option string :=
  match strrchr pkg "_" with
  | None => None
  | Some tmp => Some (next tmp)
  end.

Section WithAllocator.

(** [malloc n]: the initial content of a fresh block of [n] bytes, or
    [None] when the allocator returns NULL. *)
Variable malloc : nat -> option string.

Definition xbps_get_pkg_name (pkg : string) : option string :=
  match strrchr pkg "-" with
  | None => None
  | Some tmp =>
      let len := strlen pkg - strlen tmp + 1 in
      match malloc len with
      | None => None
      | Some pkgname => Some (strlcpy pkgname pkg len)
      end
  end.

Definition xbps_get_pkgpattern_name (pkg : string) : option string :=
  match strpbrk pkg "><=" with
  | None => None
  | Some res =>
      let len := strlen pkg - strlen res + 1 in
      match malloc len with
      | None => None
      | Some pkgname => Some (strlcpy pkgname pkg len)
      end
  end.

End WithAllocator.

Definition xbps_get_pkgpattern_version (pkg : string) : option string :=
  match strpbrk pkg "><=" with
  | None => None
  | Some res => Some res
  end.

End Ident.

(** ** Digest Engine *)

Module Digest.
Import CStr.

(** LP64: [size_t] is 64 bits wide, [ssize_t] its signed counterpart. *)
Definition SIZE_MOD : Z := 2 ^ 64.
Definition SSIZE_MAX : Z := 2 ^ 63 - 1.
Definition to_size_t (z : Z) : Z := z mod SIZE_MOD.

Definition SHA256_DIGEST_LENGTH : nat := 32.

(** An [int] stored into a [char]. *)
Definition char_of_int (z : Z) : ascii := ascii_of_N (Z.to_N (z mod 256)).

Definition uint8 (b : byte) : Z := Z.of_N (Byte.to_N b).

(** The two characters written for one byte of the digest. *)
Definition hex_hi (d : byte) : ascii :=
  if (uint8 d / 16 <? 10)%Z then char_of_int (uchar "0" + uint8 d / 16)
  else char_of_int (uchar "a" + uint8 d / 16 - 10).

Definition hex_lo (d : byte) : ascii :=
  if (uint8 d mod 16 <? 10)%Z then char_of_int (uchar "0" + uint8 d mod 16)
  else char_of_int (uchar "a" + uint8 d mod 16 - 10).

(** [digest2string digest string len]: the text left in [string]. The
    array [digest] holds at least [len] bytes in the file; a shorter list
    ends the text early. *)
Fixpoint digest2string (digest : list byte) (len : nat) {struct len} : string :=
  match len with
  | O => EmptyString
  | S len' =>
      match digest with
      | [] => EmptyString
      | d :: digest' =>
          String (hex_hi d) (String (hex_lo d) (digest2string digest' len'))
      end
  end.

Section WithSystem.

(** The operating system and the libraries, as seen by one call. A system
    call either succeeds, leaving [errno] as it was, or fails with the
    [errno] it sets. The two [close] calls are taken to succeed. *)
Inductive sys (A : Type) : Type :=
| Done (a : A)
| Fail (errno : Z).
Arguments Done {A} a.
Arguments Fail {A} errno.

Variable sysconf_PAGESIZE : Z.
Variable sys_open : string -> sys nat.
Variable sys_fstat : nat -> sys Z.
(** [mmap] of a descriptor over a length: the bytes of the mapping. *)
Variable sys_mmap : nat -> Z -> sys (list byte).
(** [munmap] of a mapping over a length. *)
Variable sys_munmap : list byte -> Z -> sys unit.
(** [SHA256 buf n md]: the digest written to [md], or [None] for NULL. *)
Variable SHA256 : list byte -> Z -> option (list byte).
Variable malloc : nat -> option string.
Variable ENOMEM : Z.
Variable ERANGE : Z.

Definition strdup (s : string) (errno : Z) : option string * Z :=
  match malloc (strlen s + 1) with
  | None => (None, ENOMEM)
  | Some _ => (Some s, errno)
  end.

(** [errno] after a call whose result is dropped. *)
Definition errno_after {A : Type} (r : sys A) (errno : Z) : Z :=
  match r with
  | Done _ => errno
  | Fail e => e
  end.

(** The result and the value of [errno] afterwards. *)
Definition xbps_get_file_hash (file : string) (errno : Z) : option string * Z :=
  let pgsize := to_size_t sysconf_PAGESIZE in
  let pgmask := to_size_t (pgsize - 1) in
  match sys_open file with
  | Fail e => (None, e)
  | Done fd =>
      match sys_fstat fd with
      | Fail e => (None, e)
      | Done st_size =>
          if (st_size >? SSIZE_MAX - 1)%Z then (None, errno)
          else
            let mapsize :=
              Z.land (to_size_t (to_size_t st_size + pgmask))
                     (to_size_t (Z.lnot pgmask)) in
            if (mapsize <? to_size_t st_size)%Z then (None, errno)
            else
              let need_guard :=
                (Z.land (to_size_t st_size) pgmask =? 0)%Z in
              match sys_mmap fd (if need_guard
                                 then to_size_t (mapsize + pgsize)
                                 else mapsize) with
              | Fail e => (None, e)
              | Done buf =>
                  match SHA256 buf (to_size_t st_size) with
                  | None => (None, errno_after (sys_munmap buf mapsize) errno)
                  | Some digest =>
                      strdup (digest2string digest SHA256_DIGEST_LENGTH)
                        (errno_after (sys_munmap buf mapsize) errno)
                  end
              end
      end
  end.

Definition xbps_check_file_hash (file sha256 : string) (errno : Z) : Z * Z :=
  match xbps_get_file_hash file errno with
  | (None, errno') => (errno', errno')
  | (Some res, errno') =>
      if negb (strcmp sha256 res =? 0)%Z then (ERANGE, errno')
      else (0%Z, errno')
  end.

End WithSystem.

Arguments Done {A} a.
Arguments Fail {A} errno.

End Digest.

(** ** Process-wide configuration *)

Module Config.
Import CStr.

(** What the static pointer [cachedir] can hold: NULL, the address of the
    literal [XBPS_CACHE_PATH], or the address of the static buffer [res] of
    [xbps_set_cachedir] or of [xbps_get_cachedir]. *)
Inductive cachedir_ptr : Type :=
| CNull
| CLiteral
| CSetRes
| CGetRes.

(** A pointer to a C string, as a caller passes one and as [rootdir] keeps
    it: to a string outside the two static buffers (a string of the caller,
    which it leaves as it is while the pointer is kept, or a literal), or
    to one of the two buffers, which is what [xbps_get_cachedir] hands out.
    The text behind a pointer to a buffer is what the buffer holds when it
    is read. A pointer to the inside of a buffer, past its first byte, is
    not among the pointers of the model. *)
Inductive strptr : Type :=
| Ext (s : string)
| AtSetRes
| AtGetRes.

(** The static variables of the file and the two static buffers. *)
Record state : Type := mkState {
  rootdir : option strptr;
  cachedir : cachedir_ptr;
  flags : Z;
  set_res : string;
  get_res : string
}.

(** The state at program start: static storage is zeroed. *)
Definition initial : state := mkState None CNull 0 "" "".

(** The text read through a pointer. *)
Definition text_of (st : state) (p : strptr) : string :=
  match p with
  | Ext s => s
  | AtSetRes => set_res st
  | AtGetRes => get_res st
  end.

(** [rootdir = dir]: the pointer is kept, the text is not copied. *)
Definition xbps_set_rootdir (dir : strptr) (st : state) : state :=
  mkState (Some dir) (cachedir st) (flags st) (set_res st) (get_res st).

Definition xbps_get_rootdir (st : state) : strptr * state :=
  match rootdir st with
  | None =>
      (Ext "/",
       mkState (Some (Ext "/")) (cachedir st) (flags st) (set_res st) (get_res st))
  | Some r => (r, st)
  end.

Definition xbps_set_flags (lflags : Z) (st : state) : state :=
  mkState (rootdir st) (cachedir st) lflags (set_res st) (get_res st).

Definition xbps_get_flags (st : state) : Z := flags st.

(** A ["%s"] argument of [snprintf], seen from its destination: a text
    somewhere else, or the destination itself. *)
Inductive source : Type :=
| Other (s : string)
| Dest.

Section WithConstants.

(** [PATH_MAX] of <limits.h> and [XBPS_CACHE_PATH] of xbps_api.h. *)
Variable PATH_MAX : Z.
Variable XBPS_CACHE_PATH : string.

(** What [snprintf] does when an argument is its own destination. C leaves
    a copy between overlapping objects undefined; [overlapping dst size a b]
    is the value an implementation returns and the text it produces, given
    the text the destination held. *)
Variable overlapping : string -> Z -> source -> source -> Z * string.

(** [snprintf res size "%s/%s" a b] into a static buffer. With both
    arguments elsewhere it is [snprintf_path]; otherwise the result is the
    implementation's, which still writes no more than [size] bytes and
    reports an error as [-1]. *)
Definition snprintf_static (dst : string) (size : Z) (a b : source)
    : Z * string :=
  match a, b with
  | Other sa, Other sb => snprintf_path dst size sa sb
  | _, _ =>
      let '(r, out) := overlapping dst size a b in
      (if (r <? 0)%Z then (-1)%Z else r,
       if (size <=? 0)%Z then dst else take (Z.to_nat (size - 1)) out)
  end.

(** A pointer as an argument of the [snprintf] of [xbps_set_cachedir], and
    of that of [xbps_get_cachedir]. *)
Definition source_set (st : state) (p : strptr) : source :=
  match p with
  | Ext s => Other s
  | AtSetRes => Dest
  | AtGetRes => Other (get_res st)
  end.

Definition source_get (st : state) (p : strptr) : source :=
  match p with
  | Ext s => Other s
  | AtSetRes => Other (set_res st)
  | AtGetRes => Dest
  end.

(** The string a value of [cachedir] points at. *)
Definition string_at (st : state) (p : cachedir_ptr) : option string :=
  match p with
  | CNull => None
  | CLiteral => Some XBPS_CACHE_PATH
  | CSetRes => Some (set_res st)
  | CGetRes => Some (get_res st)
  end.

(** A value of [cachedir] as a pointer a caller can pass on. *)
Definition as_strptr (p : cachedir_ptr) : option strptr :=
  match p with
  | CNull => None
  | CLiteral => Some (Ext XBPS_CACHE_PATH)
  | CSetRes => Some AtSetRes
  | CGetRes => Some AtGetRes
  end.

Definition xbps_set_cachedir (dir : strptr) (st : state) : state :=
  let '(root, st1) := xbps_get_rootdir st in
  let '(r, res) :=
    snprintf_static (set_res st1) (PATH_MAX - 1)
      (source_set st1 root) (source_set st1 dir) in
  let st2 := mkState (rootdir st1) (cachedir st1) (flags st1) res (get_res st1) in
  if (r =? -1)%Z || (r >=? PATH_MAX - 1)%Z
  then mkState (rootdir st2) CLiteral (flags st2) (set_res st2) (get_res st2)
  else mkState (rootdir st2) CSetRes (flags st2) (set_res st2) (get_res st2).

Definition xbps_get_cachedir (st : state) : cachedir_ptr * state :=
  match cachedir st with
  | CNull =>
      let '(root, st1) := xbps_get_rootdir st in
      let '(r, res) :=
        snprintf_static (get_res st1) (PATH_MAX - 1)
          (source_get st1 root) (Other XBPS_CACHE_PATH) in
      let st2 := mkState (rootdir st1) (cachedir st1) (flags st1) (set_res st1) res in
      if (r =? -1)%Z || (r >=? PATH_MAX - 1)%Z
      then (CNull, st2)
      else (CGetRes, mkState (rootdir st2) CGetRes (flags st2) (set_res st2) (get_res st2))
  | p => (p, st)
  end.

(** The text a read of the cache directory yields. *)
Definition read_cachedir (st : state) : option string :=
  let '(p, st') := xbps_get_cachedir st in string_at st' p.

(** Whether [snprintf] into a static buffer accepts the text [out]: its
    length is an [int] and stays below [sizeof(res) - 1]. *)
Definition fits (out : string) : bool :=
  (Z.of_nat (strlen out) <=? INT_MAX)%Z &&
  (Z.of_nat (strlen out) <? PATH_MAX - 1)%Z.

(** A root directory nobody set: still NULL, or the default. *)
Definition rootdir_default (st : state) : Prop :=
  rootdir st = None \/ rootdir st = Some (Ext "/").

(** The calls a program makes on the configuration, in order. *)
Inductive call : Type :=
| SetRootdir (dir : strptr)
| GetRootdir
| SetCachedir (dir : strptr)
| GetCachedir
| SetFlags (lflags : Z).

Definition step (c : call) (st : state) : state :=
  match c with
  | SetRootdir dir => xbps_set_rootdir dir st
  | GetRootdir => snd (xbps_get_rootdir st)
  | SetCachedir dir => xbps_set_cachedir dir st
  | GetCachedir => snd (xbps_get_cachedir st)
  | SetFlags lflags => xbps_set_flags lflags st
  end.

Definition run (cs : list call) (st : state) : state :=
  fold_left (fun s c => step c s) cs st.

Definition sets_rootdir (c : call) : bool :=
  match c with
  | SetRootdir _ => true
  | _ => false
  end.

(** The call is one of the two cache-directory calls, or passes on a
    pointer that only [xbps_get_cachedir] hands out. *)
Definition uses_cachedir (c : call) : bool :=
  match c with
  | SetCachedir _ | GetCachedir => true
  | SetRootdir AtSetRes | SetRootdir AtGetRes => true
  | _ => false
  end.

End WithConstants.

End Config.

(** ** Location Resolver *)

Module Location.
Import CStr.

Definition xbps_check_is_repo_string_remote (uri : string) : bool :=
  (strncmp uri "https://" 8 =? 0)%Z ||
  (strncmp uri "http://" 7 =? 0)%Z ||
  (strncmp uri "ftp://" 6 =? 0)%Z.

(** Property-list objects, as far as the file looks at them. *)
Inductive prop_object : Type :=
| PString (s : string)
| PNumber (n : Z)
| PBool (b : bool)
| PData (bytes : list byte).

(** The content of a local [const char *]: never assigned, or a pointer. *)
Inductive cvalue : Type :=
| Indeterminate
| Value (p : option string).

(** proplib's accessor stores through its last argument only when the key
    holds a string, and reports whether it did. *)
Definition prop_dictionary_get_cstring_nocopy
    (d : gmap string prop_object) (key : string) (cp : cvalue) : bool * cvalue :=
  match d !! key with
  | Some (PString s) => (true, Value (Some s))
  | _ => (false, cp)
  end.

(** What a function that may read an indeterminate pointer does: behaviour
    the language leaves undefined, or a returned pointer. *)
Inductive outcome : Type :=
| Undefined
| Returns (p : option string).

(** A ["%s"] argument: defined only for a pointer to a string. *)
Definition fmt_arg (v : cvalue) : option string :=
  match v with
  | Value (Some s) => Some s
  | _ => None
  end.

Definition xbps_get_pkgver_from_dict (d : gmap string prop_object) : option string :=
  match snd (prop_dictionary_get_cstring_nocopy d "pkgver" (Value None)) with
  | Value p => p
  | Indeterminate => None
  end.

Section WithAllocator.

Variable malloc : nat -> option string.

(** [xbps_xasprintf fmt ...] for the formatted text [out]: [vasprintf]
    allocates the result. *)
Definition xbps_xasprintf (out : string) : option string :=
  match malloc (strlen out + 1) with
  | None => None
  | Some _ => Some out
  end.

Section WithStore.

(** The installed-package lookup: a record, or NULL with [errno]. *)
Inductive lookup : Type :=
| Found (d : gmap string prop_object)
| Missing (errno : Z).

Variable xbps_find_pkg_dict_installed : string -> bool -> lookup.
(** [xbps_get_pkg_state_dictionary d &state]: the value returned and the
    content of [state] afterwards, given its content before. *)
Variable xbps_get_pkg_state_dictionary : gmap string prop_object -> Z -> Z * Z.
Variable xbps_pkgpattern_match : string -> string -> Z.
Variable XBPS_PKG_STATE_INSTALLED : Z.
Variable ENOENT : Z.

(** The value returned. [errno] is read as the lookup left it; that the
    function clears it on the not-installed path is not recorded. *)
Definition xbps_check_is_installed_pkg (pkg : string) : Z :=
  match Ident.xbps_get_pkgpattern_name malloc pkg with
  | None => (-1)%Z
  | Some pkgname =>
      match xbps_find_pkg_dict_installed pkgname false with
      | Missing errno => if (errno =? ENOENT)%Z then 0%Z else (-1)%Z
      | Found dict =>
          let '(rv, state) := xbps_get_pkg_state_dictionary dict 0%Z in
          if negb (rv =? 0)%Z then (-1)%Z
          else if negb (state =? XBPS_PKG_STATE_INSTALLED)%Z then 0%Z
          else
            match xbps_get_pkgver_from_dict dict with
            | None => (-1)%Z
            | Some instpkgver => xbps_pkgpattern_match instpkgver pkg
            end
      end
  end.

Definition xbps_check_is_installed_pkgname (pkgname : string) : bool :=
  match xbps_find_pkg_dict_installed pkgname false with
  | Found _ => true
  | Missing _ => false
  end.

End WithStore.

Section WithConfig.

Variable PATH_MAX : Z.
Variable XBPS_CACHE_PATH : string.
Variable overlapping :
  string -> Z -> Config.source -> Config.source -> Z * string.

(** [filen] and [arch] are declared without an initialiser and the results
    of the two dictionary reads are dropped, so a pointer a branch formats
    may be one nothing was stored in. *)
Definition xbps_get_binpkg_local_path
    (pkgd : gmap string prop_object) (repoloc : string) (st : Config.state)
    : outcome * Config.state :=
  let filen :=
    snd (prop_dictionary_get_cstring_nocopy pkgd "filename" Indeterminate) in
  let arch :=
    snd (prop_dictionary_get_cstring_nocopy pkgd "architecture" Indeterminate) in
  let '(cdir, st') :=
    Config.xbps_get_cachedir PATH_MAX XBPS_CACHE_PATH overlapping st in
  match Config.string_at XBPS_CACHE_PATH st' cdir with
  | None => (* cdir == NULL *) (Returns None, st')
  | Some cdir_s =>
      if negb (xbps_check_is_repo_string_remote repoloc) then
        match fmt_arg arch, fmt_arg filen with
        | Some a, Some f =>
            (Returns (xbps_xasprintf (repoloc +:+ "/" +:+ a +:+ "/" +:+ f)), st')
        | _, _ => (Undefined, st')
        end
      else
        match fmt_arg filen with
        | Some f => (Returns (xbps_xasprintf (cdir_s +:+ "/" +:+ f)), st')
        | None => (Undefined, st')
        end
  end.

End WithConfig.

End WithAllocator.

End Location.


(** ** Concrete environments *)

Module Samples.
Import CStr.

(** An allocator that never fails; fresh blocks read as empty. *)
Definition sample_malloc (n : nat) : option string := Some "".

(** Linux values of the constants of <errno.h> and <limits.h>, and
    [XBPS_CACHE_PATH] as xbps_api.h defines it. *)
Definition ENOENT : Z := 2.
Definition ENOMEM : Z := 12.
Definition ERANGE : Z := 34.
Definition PATH_MAX : Z := 4096.
Definition XBPS_CACHE_PATH : string := "var/cache/xbps".

(** A root directory as long as [PATH_MAX]. *)
Definition long_rootdir : string := replicate 4096 "r".

(** A system with one readable file of five bytes on a 4096-byte page, and
    the SHA-256 digest of those bytes. *)
Definition hello : list byte := [x68; x65; x6c; x6c; x6f].

Definition sample_open (file : string) : Digest.sys nat :=
  if String.eqb file "/tmp/hello" then Digest.Done 3 else Digest.Fail ENOENT.

Definition sample_fstat (fd : nat) : Digest.sys Z := Digest.Done 5%Z.

Definition sample_mmap (fd : nat) (len : Z) : Digest.sys (list byte) :=
  Digest.Done (hello ++ List.repeat x00 (Z.to_nat len - 5))%list.

(** [munmap] refuses a length of zero, as on Linux. *)
Definition EINVAL : Z := 22.

Definition sample_munmap (buf : list byte) (len : Z) : Digest.sys unit :=
  if (len =? 0)%Z then Digest.Fail EINVAL else Digest.Done tt.

Definition sample_SHA256 (buf : list byte) (n : Z) : option (list byte) :=
  Some [x2c; xf2; x4d; xba; x5f; xb0; xa3; x0e; x26; xe8; x3b; x2a; xc5; xb9;
        xe2; x9e; x1b; x16; x1e; x5c; x1f; xa7; x42; x5e; x73; x04; x33; x62;
        x93; x8b; x98; x24].

Definition hello_digest : string :=
  "2cf24dba5fb0a30e26e83b2ac5b9e29e1b161e5c1fa7425e73043362938b9824".


(** A store with one fully installed package, [foo-1.0]. *)
Definition XBPS_PKG_STATE_INSTALLED : Z := 2.

Definition foo_record : gmap string Location.prop_object :=
  <["pkgver" := Location.PString "foo-1.0"]>
    (<["pkgname" := Location.PString "foo"]> ∅).

Definition sample_find (pkgname : string) (b : bool) : Location.lookup :=
  if String.eqb pkgname "foo" then Location.Found foo_record
  else Location.Missing ENOENT.

Definition sample_state (d : gmap string Location.prop_object) (state : Z) : Z * Z :=
  (0%Z, XBPS_PKG_STATE_INSTALLED).

(** A matcher that accepts every installed version. *)
Definition sample_match (instpkgver pattern : string) : Z := 1.

(** Package records of a repository index: complete, without
    ["architecture"], and without ["filename"]. *)
Definition full_record : gmap string Location.prop_object :=
  <["filename" := Location.PString "foo-1.0.x86_64.xbps"]>
    (<["architecture" := Location.PString "x86_64"]> ∅).

Definition no_arch_record : gmap string Location.prop_object :=
  <["filename" := Location.PString "foo-1.0.x86_64.xbps"]> ∅.

Definition no_filename_record : gmap string Location.prop_object :=
  <["architecture" := Location.PString "x86_64"]> ∅.

(** An implementation's [snprintf] for a destination that is also an
    argument: it clears the first byte of the destination, then writes the
    output byte by byte from front to back, measuring a ["%s"] argument
    when it reaches it, and ends the text with a NUL. Memory is the
    destination, its bytes past the text being zero; bytes from [lim] on
    are not written by the copy. *)
Definition peek (m : list ascii) (i : nat) : ascii := nth i m zero.

Fixpoint poke (m : list ascii) (i : nat) (c : ascii) : list ascii :=
  match i, m with
  | O, [] => [c]
  | O, _ :: m' => c :: m'
  | S i', [] => zero :: poke [] i' c
  | S i', x :: m' => x :: poke m' i' c
  end.

Definition put (lim : nat) (m : list ascii) (i : nat) (c : ascii) : list ascii :=
  if (i <? lim)%nat then poke m i c else m.

Fixpoint mem_strlen (m : list ascii) : nat :=
  match m with
  | [] => O
  | c :: m' => if Ascii.eqb c zero then O else S (mem_strlen m')
  end.

Fixpoint mem_text (m : list ascii) : string :=
  match m with
  | [] => EmptyString
  | c :: m' => if Ascii.eqb c zero then EmptyString else String c (mem_text m')
  end.

Fixpoint write_text (lim : nat) (m : list ascii) (pos : nat) (s : string)
    : list ascii :=
  match s with
  | EmptyString => m
  | String c s' => write_text lim (put lim m pos c) (S pos) s'
  end.

Fixpoint copy_forward (lim : nat) (m : list ascii) (from to n : nat)
    : list ascii :=
  match n with
  | O => m
  | S n' => copy_forward lim (put lim m to (peek m from)) (S from) (S to) n'
  end.

Definition write_arg (lim : nat) (mp : list ascii * nat) (a : Config.source)
    : list ascii * nat :=
  let '(m, pos) := mp in
  match a with
  | Config.Other s => (write_text lim m pos s, (pos + strlen s)%nat)
  | Config.Dest =>
      let n := mem_strlen m in (copy_forward lim m 0 pos n, (pos + n)%nat)
  end.

Definition forward_snprintf (dst : string) (size : Z) (a b : Config.source)
    : Z * string :=
  let lim := Z.to_nat (size - 1) in
  let m0 := list_ascii_of_string dst in
  let m1 := if (size <=? 0)%Z then m0 else poke m0 0 zero in
  let '(m2, pos) :=
    write_arg lim (write_arg lim (write_arg lim (m1, O) a) (Config.Other "/")) b in
  let m3 := if (size <=? 0)%Z then m2 else poke m2 (Nat.min pos lim) zero in
  (if (INT_MAX <? Z.of_nat pos)%Z then (-1)%Z else Z.of_nat pos, mem_text m3).

End Samples.

(** ** Interactive confirmation *)

Module Prompt.
Import CStr.

(** [isspace] and [tolower] of <ctype.h>, in the "C" locale. *)
Definition isspace (c : ascii) : bool :=
  let n := nat_of_ascii c in
  Nat.eqb n 32 || (Nat.leb 9 n && Nat.leb n 13).

Definition tolower (c : ascii) : ascii :=
  let n := nat_of_ascii c in
  if Nat.leb 65 n && Nat.leb n 90 then ascii_of_nat (n + 32) else c.

(** [strcasecmp]: [strcmp] on the lower-cased characters. *)
Fixpoint strcasecmp (s1 s2 : string) : Z :=
  match s1, s2 with
  | EmptyString, EmptyString => 0
  | EmptyString, String c _ => (0 - uchar (tolower c))%Z
  | String c _, EmptyString => uchar (tolower c)
  | String c1 r1, String c2 r2 =>
      if Ascii.eqb (tolower c1) (tolower c2) then strcasecmp r1 r2
      else (uchar (tolower c1) - uchar (tolower c2))%Z
  end.

(** [while (isspace( *pch)) pch++]: where [pch] stops. *)
Fixpoint skip_space (pch : string) : string :=
  match pch with
  | EmptyString => EmptyString
  | String a r => if isspace a then skip_space r else pch
  end.

(** [while (isspace( *pch)) pch--] from index [i] of [str]: the index where
    [pch] stops, or [None] when the loop reads outside the string. *)
Fixpoint scan_back (str : string) (i : nat) {struct i} : option nat :=
  match String.get i str with
  | None => None
  | Some c =>
      if isspace c then
        match i with
        | O => None
        | S i' => scan_back str i'
        end
      else Some i
  end.

(** [strtrim str]: the content of the buffer afterwards (the function
    returns [str] itself). *)
Definition strtrim (str : option string) : Location.outcome :=
  match str with
  | None => Location.Returns None
  | Some EmptyString => Location.Returns (Some EmptyString)
  | Some s =>
      (* the memmove, when pch != str, moves the rest to the front *)
      let s1 := skip_space s in
      match s1 with
      | EmptyString => Location.Returns (Some EmptyString)
      | _ =>
          match scan_back s1 (strlen s1 - 1) with
          | None => Location.Undefined
          | Some i => Location.Returns (Some (take (i + 1) s1))
          end
      end
  end.

(** The C string a buffer holds: its bytes before the first NUL. *)
Fixpoint cstr_of (bytes : string) : string :=
  match bytes with
  | EmptyString => EmptyString
  | String a r => if Ascii.eqb a NUL then EmptyString else String a (cstr_of r)
  end.

Definition newline : ascii := Ascii.ascii_of_nat 10.

(** What [fgets] takes from the input: at most [n] bytes, up to and
    including the first newline; and what it leaves. *)
Fixpoint read_line (n : nat) (input : string) : string * string :=
  match n, input with
  | S n', String a r =>
      if Ascii.eqb a newline then (String a EmptyString, r)
      else let '(l, rest) := read_line n' r in (String a l, rest)
  | _, _ => (EmptyString, input)
  end.

(** [fgets buf size stdin] on the unread input: the bytes stored, or [None]
    for NULL when the input is at its end. The input is a finite text; a
    read error is not part of the model. *)
Definition fgets (size : nat) (input : string) : option string * string :=
  match read_line (size - 1) input with
  | (EmptyString, rest) => (None, rest)
  | (l, rest) => (Some l, rest)
  end.

(** The two streams a prompt uses: the unread input and the text written
    to the error stream. *)
Record streams : Type := mkStreams {
  stdin : string;
  stderr : string
}.

(** [question preset fmt ap], with [msg] the text [vfprintf] writes for
    [fmt] and [ap]. The answer is [None] if [strtrim] ran outside the
    buffer. *)
Definition question (preset : bool) (msg : string) (io : streams)
    : option bool * streams :=
  let err := stderr io +:+ msg +:+
             " " +:+ (if preset then "[YES/no]" else "[yes/NO]") +:+ " " in
  match fgets 32 (stdin io) with
  | (None, rest) => (Some false, mkStreams rest err)
  | (Some buf, rest) =>
      match strtrim (Some (cstr_of buf)) with
      | Location.Returns (Some response) =>
          if Nat.eqb (strlen response) 0 then (Some preset, mkStreams rest err)
          else if (strcasecmp response "yes" =? 0)%Z
               then (Some true, mkStreams rest err)
          else if (strcasecmp response "no" =? 0)%Z
               then (Some false, mkStreams rest err)
          else (Some false, mkStreams rest err)
      | _ => (None, mkStreams rest err)
      end
  end.

Definition xbps_yesno (msg : string) (io : streams) : option bool * streams :=
  question true msg io.

Definition xbps_noyes (msg : string) (io : streams) : option bool * streams :=
  question false msg io.

(** The text of [s] from index [n] on. *)
Fixpoint drop (n : nat) (s : string) : string :=
  match n, s with
  | S n', String _ r => drop n' r
  | _, _ => s
  end.

(** Every character of [s] is white space. *)
Fixpoint all_space (s : string) : bool :=
  match s with
  | EmptyString => true
  | String a r => isspace a && all_space r
  end.

(** [s] neither starts nor ends with white space. *)
Definition trimmed (s : string) : Prop :=
  (forall a r, s = String a r -> isspace a = false) /\
  (forall u a, s = u +:+ String a EmptyString -> isspace a = false).

(** [s] with its upper-case letters lowered. *)
Fixpoint lower (s : string) : string :=
  match s with
  | EmptyString => EmptyString
  | String a r => String (tolower a) (lower r)
  end.

End Prompt.

(** ** Histories of configuration calls *)

Module History.
Import Config.

(** The pointer of the last [xbps_set_rootdir] among the calls. *)
Fixpoint last_rootdir (cs : list call) : option strptr :=
  match cs with
  | [] => None
  | c :: cs' =>
      match last_rootdir cs' with
      | Some dir => Some dir
      | None =>
          match c with
          | SetRootdir dir => Some dir
          | _ => None
          end
      end
  end.

(** The argument of the last [xbps_set_flags] among the calls. *)
Fixpoint last_flags (cs : list call) : option Z :=
  match cs with
  | [] => None
  | c :: cs' =>
      match last_flags cs' with
      | Some f => Some f
      | None =>
          match c with
          | SetFlags f => Some f
          | _ => None
          end
      end
  end.

Definition sets_cachedir (c : call) : bool :=
  match c with
  | SetCachedir _ => true
  | _ => false
  end.

(** The cache directory of a state is resolved, to the text [c]. *)
Definition resolved (XBPS_CACHE_PATH c : string) (st : state) : Prop :=
  cachedir st <> CNull /\
  string_at XBPS_CACHE_PATH st (cachedir st) = Some c.

(** The static buffer a resolved cache directory points at holds a text
    shorter than [PATH_MAX - 1]. *)
Definition buffers_bounded (PATH_MAX : Z) (st : state) : Prop :=
  (cachedir st = CSetRes ->
     (Z.of_nat (CStr.strlen (set_res st)) < PATH_MAX - 1)%Z) /\
  (cachedir st = CGetRes ->
     (Z.of_nat (CStr.strlen (get_res st)) < PATH_MAX - 1)%Z).

End History.

(** ** Repository index path *)

Module RepoIndex.
Import CStr Location.

Section WithSystem.

Variable malloc : nat -> option string.
(** [uname(&un)]: the [machine] field, or [None] when the call fails. *)
Variable uname_machine : option string.
(** [xbps_get_remote_repo_string uri], of another file of the library: the
    directory name that stands for a remote repository, or NULL. *)
Variable xbps_get_remote_repo_string : string -> option string.
(** [XBPS_META_PATH] and [XBPS_PKGINDEX] of xbps_api.h. *)
Variable XBPS_META_PATH : string.
Variable XBPS_PKGINDEX : string.

Definition get_pkg_index_remote_plist (uri : string) (st : Config.state)
    : option string * Config.state :=
  match xbps_get_remote_repo_string uri with
  | None => (None, st)
  | Some uri_fixed =>
      let '(root, st') := Config.xbps_get_rootdir st in
      (xbps_xasprintf malloc
         (Config.text_of st' root +:+ "/" +:+ XBPS_META_PATH +:+ "/" +:+
          uri_fixed +:+ "/" +:+ XBPS_PKGINDEX), st')
  end.

Definition xbps_get_pkg_index_plist (uri : string) (st : Config.state)
    : option string * Config.state :=
  match uname_machine with
  | None => (None, st)
  | Some machine =>
      if xbps_check_is_repo_string_remote uri
      then get_pkg_index_remote_plist uri st
      else (xbps_xasprintf malloc
              (uri +:+ "/" +:+ machine +:+ "/" +:+ XBPS_PKGINDEX), st)
  end.

End WithSystem.

End RepoIndex.

(** ** What the digest asks of [mmap] *)

Module Mapping.
Import Digest.

(** A mapping length fit for a file of [st_size] bytes: whole pages, more
    than the file, and at most one page more. *)
Definition mapping_ok (pgsize st_size len : Z) : bool :=
  (len mod pgsize =? 0)%Z && (st_size <? len)%Z && (len <=? st_size + pgsize)%Z.

(** [mmap] behind a check: a request whose length is not fit for the file
    behind the descriptor is refused. *)
Definition checked_mmap
    (pgsize : Z) (sys_fstat : nat -> sys Z)
    (sys_mmap : nat -> Z -> sys (list byte)) (fd : nat) (len : Z)
    : sys (list byte) :=
  match sys_fstat fd with
  | Done st_size =>
      if mapping_ok pgsize st_size len then sys_mmap fd len else Fail 0%Z
  | Fail e => Fail e
  end.

End Mapping.

(** ** More concrete environments *)

Module MoreSamples.
Import CStr.

Definition XBPS_META_PATH : string := "var/db/xbps".
Definition XBPS_PKGINDEX : string := "pkg-index.plist".

(** A file whose size is the largest [off_t]. *)
Definition huge_fstat (fd : nat) : Digest.sys Z := Digest.Done (2 ^ 63 - 1)%Z.

(** A file without content. *)
Definition empty_fstat (fd : nat) : Digest.sys Z := Digest.Done 0%Z.

(** A record that is installed but has no ["pkgver"]. *)
Definition no_pkgver_record : gmap string Location.prop_object :=
  <["pkgname" := Location.PString "foo"]> ∅.

Definition no_pkgver_find (pkgname : string) (b : bool) : Location.lookup :=
  Location.Found no_pkgver_record.

(** A matcher that compares the installed version with the text after
    [">="] for equality. *)
Definition exact_match (instpkgver pattern : string) : Z :=
  if String.eqb pattern "foo>=1.0" && String.eqb instpkgver "foo-1.0"
  then 1%Z else 0%Z.

End MoreSamples.
(** * Properties *)

(** ** Facts about the C string functions *)

Section CStrFacts.
Import CStr.

Lemma append_nil (s : string) : "" +:+ s = s.
Proof. reflexivity. Qed.

Lemma append_cons (a : ascii) (s t : string) :
  String a s +:+ t = String a (s +:+ t).
Proof. reflexivity. Qed.

Lemma strlen_append (s t : string) : strlen (s +:+ t) = strlen s + strlen t.
Proof.
  induction s as [|a s IH]; [reflexivity|].
  rewrite append_cons. unfold strlen in *. simpl. now rewrite IH.
Qed.

Lemma take_append (pre s : string) : take (strlen pre) (pre +:+ s) = pre.
Proof.
  induction pre as [|a pre IH]; [now destruct s|].
  rewrite append_cons. unfold strlen in *. simpl. now rewrite IH.
Qed.

Lemma take_all (n : nat) (s : string) : strlen s <= n -> take n s = s.
Proof.
  revert n. induction s as [|a s IH]; intros [|n] H; try reflexivity.
  - unfold strlen in H. simpl in H. lia.
  - unfold strlen in *. simpl in *. rewrite IH; [reflexivity | lia].
Qed.

Lemma occurs_nil (c : ascii) : ~ occurs c "".
Proof. intros (pre & suf & H). destruct pre; discriminate H. Qed.

Lemma occurs_cons (c a : ascii) (r : string) :
  occurs c (String a r) <-> a = c \/ occurs c r.
Proof.
  split.
  - intros (pre & suf & H). destruct pre as [|b pre].
    + rewrite append_nil in H. left. congruence.
    + rewrite append_cons in H. right. exists pre, suf. congruence.
  - intros [-> | (pre & suf & ->)].
    + exists "", r. reflexivity.
    + exists (String a pre), suf. reflexivity.
Qed.

Lemma no_nul_cstring (s : string) : no_nul s = true -> cstring s.
Proof.
  unfold cstring. induction s as [|a r IH]; simpl.
  - intros _. apply occurs_nil.
  - intros [Ha Hr]%andb_true_iff. rewrite occurs_cons.
    intros [->|H]; [discriminate Ha | now apply IH].
Qed.

(** A character occurs in a string or it does not: the two cases of the
    statements below cover every string. *)
Lemma occurs_dec (c : ascii) (s : string) : occurs c s \/ ~ occurs c s.
Proof.
  induction s as [|a r IH].
  - right. apply occurs_nil.
  - rewrite occurs_cons. destruct (Ascii.eqb_spec a c); tauto.
Qed.

(** [strrchr] finds nothing exactly when the character does not occur. *)
Lemma strrchr_none (s : string) (c : ascii) :
  c <> NUL -> (strrchr s c = None <-> ~ occurs c s).
Proof.
  intros Hc. induction s as [|a r IH]; simpl.
  - destruct (Ascii.eqb_spec c NUL); [contradiction|].
    split; [intros _; apply occurs_nil | reflexivity].
  - rewrite occurs_cons. destruct (strrchr r c) as [t|].
    + split; [discriminate|]. intros H. exfalso.
      assert (Hr : ~ occurs c r) by tauto.
      apply IH in Hr. discriminate Hr.
    + assert (Hr : ~ occurs c r) by now apply IH.
      destruct (Ascii.eqb_spec a c); split; try discriminate; tauto.
Qed.

(** [strrchr] on a string split at the last occurrence. *)
Lemma strrchr_last (pre suf : string) (c : ascii) :
  c <> NUL -> ~ occurs c suf ->
  strrchr (pre +:+ String c suf) c = Some (String c suf).
Proof.
  intros Hc Hsuf. induction pre as [|a pre IH].
  - rewrite append_nil. simpl.
    apply (strrchr_none suf c Hc) in Hsuf. rewrite Hsuf.
    now rewrite Ascii.eqb_refl.
  - rewrite append_cons. simpl. now rewrite IH.
Qed.

(** What [strrchr] returns is the suffix at the last occurrence. *)
Lemma strrchr_some (s t : string) (c : ascii) :
  c <> NUL -> strrchr s c = Some t ->
  exists pre suf, s = pre +:+ t /\ t = String c suf /\ ~ occurs c suf.
Proof.
  intros Hc. induction s as [|a r IH]; simpl.
  - destruct (Ascii.eqb_spec c NUL); [contradiction | discriminate].
  - destruct (strrchr r c) as [t'|] eqn:E.
    + intros [= <-]. destruct (IH eq_refl) as (pre & suf & -> & -> & Hs).
      exists (String a pre), suf. auto.
    + destruct (Ascii.eqb_spec a c) as [->|]; [|discriminate].
      intros [= <-]. exists "", r. repeat split.
      now apply strrchr_none in E.
Qed.

Lemma strpbrk_none (s accept : string) :
  strpbrk s accept = None <-> ~ occurs_any accept s.
Proof.
  induction s as [|a r IH]; simpl.
  - split; [|reflexivity]. intros _ (c & _ & H). now apply occurs_nil in H.
  - destruct (in_set a accept) eqn:E.
    + split; [discriminate|]. intros H. exfalso. apply H.
      exists a. split; [assumption|]. apply occurs_cons. now left.
    + rewrite IH. split; intros H (c & Hc & Ho); apply H.
      * apply occurs_cons in Ho as [->|Ho]; [congruence|]. now exists c.
      * exists c. split; [assumption|]. apply occurs_cons. now right.
Qed.

Lemma strpbrk_first (pre suf accept : string) (c : ascii) :
  in_set c accept = true -> ~ occurs_any accept pre ->
  strpbrk (pre +:+ String c suf) accept = Some (String c suf).
Proof.
  intros Hc. induction pre as [|a pre IH]; intros Hpre.
  - rewrite append_nil. simpl. now rewrite Hc.
  - rewrite append_cons. simpl. destruct (in_set a accept) eqn:E.
    + exfalso. apply Hpre. exists a. split; [assumption|].
      apply occurs_cons. now left.
    + apply IH. intros (d & Hd & Ho). apply Hpre. exists d.
      split; [assumption|]. apply occurs_cons. now right.
Qed.

Lemma strpbrk_some (s t accept : string) :
  strpbrk s accept = Some t ->
  exists pre c suf, s = pre +:+ t /\ t = String c suf /\
    in_set c accept = true /\ ~ occurs_any accept pre.
Proof.
  revert t. induction s as [|a r IH]; simpl; intros t; [discriminate|].
  destruct (in_set a accept) eqn:E.
  - intros [= <-]. exists "", a, r. repeat split; [assumption|].
    intros (c & _ & H). now apply occurs_nil in H.
  - intros H. destruct (IH _ H) as (pre & c & suf & -> & -> & Hc & Hpre).
    exists (String a pre), c, suf. repeat split; [assumption|].
    intros (d & Hd & Ho). apply occurs_cons in Ho as [->|Ho]; [congruence|].
    apply Hpre. now exists d.
Qed.

End CStrFacts.

(** ** Identifier Grammar Parser *)

Section IdentFacts.
Import CStr Ident.

(** The shape shared by the three suffix accessors. *)
Lemma suffix_accessor (c : ascii) (s : string) :
  c <> NUL ->
  let field := match strrchr s c with
               | None => None
               | Some tmp => Some (next tmp)
               end in
  (forall v, field = Some v <-> after_last c s v) /\
  (field = None <-> ~ occurs c s).
Proof.
  intros Hc field. subst field. split.
  - intros v. split.
    + destruct (strrchr s c) as [t|] eqn:E; [|discriminate].
      intros [= <-].
      destruct (strrchr_some _ _ _ Hc E) as (pre & suf & -> & -> & Hs).
      exists pre. auto.
    + intros (pre & -> & Hv). now rewrite strrchr_last.
  - rewrite <- (strrchr_none s c Hc). destruct (strrchr s c); split; congruence.
Qed.

(** C5. [xbps_get_pkg_version], [xbps_get_pkg_revision] and
    [xbps_get_pkg_epoch] return exactly the text after the last ['-'],
    ['_'] and [':'] of their argument, and NULL exactly when that
    delimiter does not occur. *)
Theorem pkg_fields_follow_last_delimiter (s : string) :
  ((forall v, xbps_get_pkg_version s = Some v <-> after_last "-" s v) /\
   (xbps_get_pkg_version s = None <-> ~ occurs "-" s)) /\
  ((forall v, xbps_get_pkg_revision s = Some v <-> after_last "_" s v) /\
   (xbps_get_pkg_revision s = None <-> ~ occurs "_" s)) /\
  ((forall v, xbps_get_pkg_epoch s = Some v <-> after_last ":" s v) /\
   (xbps_get_pkg_epoch s = None <-> ~ occurs ":" s)).
Proof.
  exact (conj (suffix_accessor "-" s ltac:(discriminate))
          (conj (suffix_accessor "_" s ltac:(discriminate))
                (suffix_accessor ":" s ltac:(discriminate)))).
Qed.

Example pkg_fields_sample :
  xbps_get_pkg_version "foo-1.0_2:3" = Some "1.0_2:3" /\
  xbps_get_pkg_revision "foo-1.0_2:3" = Some "2:3" /\
  xbps_get_pkg_epoch "foo-1.0_2:3" = Some "3" /\
  xbps_get_pkg_version "foo-" = Some "" /\
  xbps_get_pkg_version "" = None.
Proof. repeat split. Qed.

(** The copy made by [malloc] and [strlcpy] in the two name accessors. *)
Lemma copy_prefix (malloc : nat -> option string) (pre t : string) :
  (forall n, is_Some (malloc n)) ->
  match malloc (strlen (pre +:+ t) - strlen t + 1) with
  | None => None
  | Some pkgname =>
      Some (strlcpy pkgname (pre +:+ t) (strlen (pre +:+ t) - strlen t + 1))
  end = Some pre.
Proof.
  intros Hm. rewrite strlen_append.
  replace (strlen pre + strlen t - strlen t + 1) with (S (strlen pre)) by lia.
  destruct (Hm (S (strlen pre))) as [buf ->]. simpl.
  now rewrite take_append.
Qed.

(** C6. When the allocation succeeds, [xbps_get_pkg_name] returns the text
    before the last ['-'], so that name, ['-'] and version give the
    argument back; without a ['-'] both accessors return NULL. *)
Theorem pkg_name_is_prefix_before_last_dash
    (malloc : nat -> option string) (s : string) :
  (forall n, is_Some (malloc n)) ->
  (occurs "-" s ->
     exists n v, xbps_get_pkg_name malloc s = Some n /\
                 xbps_get_pkg_version s = Some v /\
                 s = n +:+ String "-" v /\ ~ occurs "-" v) /\
  (~ occurs "-" s ->
     xbps_get_pkg_name malloc s = None /\ xbps_get_pkg_version s = None).
Proof.
  intros Hm. unfold xbps_get_pkg_name, xbps_get_pkg_version.
  assert (Hc : "-"%char <> NUL) by discriminate.
  destruct (strrchr s "-") as [t|] eqn:E.
  - destruct (strrchr_some _ _ _ Hc E) as (pre & suf & -> & -> & Hs).
    split.
    + intros _. exists pre, suf. rewrite copy_prefix by assumption. auto.
    + intros H. exfalso. apply H. now exists pre, suf.
  - apply strrchr_none in E; [|assumption]. split; [contradiction | auto].
Qed.

Lemma pkg_name_is_prefix_before_last_dash_witness :
  exists n v, xbps_get_pkg_name (fun _ => Some "") "foo-bar-1.0_2" = Some n /\
              xbps_get_pkg_version "foo-bar-1.0_2" = Some v /\
              "foo-bar-1.0_2" = n +:+ String "-" v /\ ~ occurs "-" v.
Proof.
  apply (pkg_name_is_prefix_before_last_dash (fun _ => Some "") "foo-bar-1.0_2").
  - intros n. exists "". reflexivity.
  - exists "foo-bar", "1.0_2". reflexivity.
Defined.

(** ** Pattern Splitter *)

(** C7. When the allocation succeeds, [xbps_get_pkgpattern_name] returns
    the text before the first of ['>'], ['<'], ['='] and
    [xbps_get_pkgpattern_version] the text from that character on; when
    none of them occurs both return NULL. *)
Theorem pattern_split_at_first_operator
    (malloc : nat -> option string) (p : string) :
  (forall n, is_Some (malloc n)) ->
  (occurs_any "><=" p ->
     exists pre c suf,
       p = pre +:+ String c suf /\ in_set c "><=" = true /\
       ~ occurs_any "><=" pre /\
       xbps_get_pkgpattern_name malloc p = Some pre /\
       xbps_get_pkgpattern_version p = Some (String c suf)) /\
  (~ occurs_any "><=" p ->
     xbps_get_pkgpattern_name malloc p = None /\
     xbps_get_pkgpattern_version p = None).
Proof.
  intros Hm. unfold xbps_get_pkgpattern_name, xbps_get_pkgpattern_version.
  destruct (strpbrk p "><=") as [t|] eqn:E.
  - destruct (strpbrk_some _ _ _ E) as (pre & c & suf & -> & -> & Hc & Hpre).
    split.
    + intros _. exists pre, c, suf. rewrite copy_prefix by assumption. auto.
    + intros H. exfalso. apply H. exists c. split; [assumption|].
      now exists pre, suf.
  - apply strpbrk_none in E. split; [contradiction | auto].
Qed.

Lemma pattern_split_at_first_operator_witness :
  exists pre c suf,
    "foo>=1.0" = pre +:+ String c suf /\ in_set c "><=" = true /\
    ~ occurs_any "><=" pre /\
    xbps_get_pkgpattern_name (fun _ => Some "") "foo>=1.0" = Some pre /\
    xbps_get_pkgpattern_version "foo>=1.0" = Some (String c suf).
Proof.
  apply (pattern_split_at_first_operator (fun _ => Some "") "foo>=1.0").
  - intros n. exists "". reflexivity.
  - exists ">"%char. split; [reflexivity|]. exists "foo", "=1.0". reflexivity.
Defined.

Example pattern_sample :
  xbps_get_pkgpattern_name (fun _ => Some "") "foo>=1.0" = Some "foo" /\
  xbps_get_pkgpattern_version "foo>=1.0" = Some ">=1.0" /\
  xbps_get_pkgpattern_name (fun _ => Some "") "foo" = None /\
  xbps_get_pkgpattern_version "foo" = None.
Proof. repeat split. Qed.

End IdentFacts.

(** ** Remote references *)

Section RemoteFacts.
Import CStr Location.

Lemma uchar_inj (a c : ascii) : uchar a = uchar c -> a = c.
Proof.
  unfold uchar. intros H. apply Nat2Z.inj in H.
  rewrite <- (ascii_nat_embedding a), <- (ascii_nat_embedding c).
  now rewrite H.
Qed.

Lemma uchar_zero (c : ascii) : uchar c = 0%Z -> c = NUL.
Proof. intros H. apply uchar_inj. now rewrite H. Qed.

(** [strncmp] over the length of a NUL-free [p] tests for the prefix [p]. *)
Lemma strncmp_prefix (p s : string) :
  cstring p -> (strncmp s p (strlen p) = 0%Z <-> has_prefix p s).
Proof.
  unfold cstring, has_prefix. revert s.
  induction p as [|c p IH]; intros s Hp.
  - split; [intros _; now exists s | intros _; reflexivity].
  - rewrite occurs_cons in Hp.
    assert (Hc : c <> NUL) by (intros ->; tauto).
    assert (Hp' : ~ occurs NUL p) by tauto.
    unfold strlen. simpl. destruct s as [|a s].
    + split.
      * intros H. exfalso. apply Hc, uchar_zero. lia.
      * intros (r & H). discriminate H.
    + destruct (Ascii.eqb_spec a c) as [->|Hac].
      * fold (strlen p). rewrite (IH s Hp'). split.
        -- intros (r & ->). now exists r.
        -- intros (r & H). rewrite append_cons in H. exists r. congruence.
      * split.
        -- intros H. exfalso. apply Hac, uchar_inj. lia.
        -- intros (r & H). rewrite append_cons in H. congruence.
Qed.

(** C8. [xbps_check_is_repo_string_remote] holds exactly of the strings
    that start with ["https://"], ["http://"] or ["ftp://"], letter case
    included; every other string is local. *)
Theorem remote_iff_scheme_prefix (uri : string) :
  xbps_check_is_repo_string_remote uri = true <->
  has_prefix "https://" uri \/ has_prefix "http://" uri \/
  has_prefix "ftp://" uri.
Proof.
  unfold xbps_check_is_repo_string_remote.
  rewrite !orb_true_iff, !Z.eqb_eq.
  rewrite <- (strncmp_prefix "https://" uri) by now apply no_nul_cstring.
  rewrite <- (strncmp_prefix "http://" uri) by now apply no_nul_cstring.
  rewrite <- (strncmp_prefix "ftp://" uri) by now apply no_nul_cstring.
  unfold strlen. simpl String.length. tauto.
Qed.

Example remote_samples :
  xbps_check_is_repo_string_remote "https://example.org/repo" = true /\
  xbps_check_is_repo_string_remote "/srv/repo" = false /\
  xbps_check_is_repo_string_remote "HTTP://example.org" = false /\
  xbps_check_is_repo_string_remote "Ftp://example.org" = false /\
  xbps_check_is_repo_string_remote "file:///srv/repo" = false /\
  xbps_check_is_repo_string_remote "http:/" = false.
Proof. repeat split. Qed.

End RemoteFacts.

(** ** Digest Engine *)

Section DigestFacts.
Import CStr Digest.

Lemma strcmp_refl (s : string) : strcmp s s = 0%Z.
Proof. induction s as [|c s IH]; simpl; [|rewrite Ascii.eqb_refl]; auto. Qed.

(** On C strings [strcmp] returns 0 only for equal strings. *)
Lemma strcmp_eq (a b : string) :
  cstring a -> cstring b -> strcmp a b = 0%Z -> a = b.
Proof.
  unfold cstring. revert b.
  induction a as [|c a IH]; intros [|d b] Ha Hb; simpl; try reflexivity.
  - intros H. exfalso. apply Hb, occurs_cons. left.
    apply uchar_zero. lia.
  - intros H. exfalso. apply Ha, occurs_cons. left.
    now apply uchar_zero.
  - rewrite occurs_cons in Ha, Hb.
    destruct (Ascii.eqb_spec c d) as [->|Hcd].
    + intros H. f_equal. apply IH; tauto.
    + intros H. exfalso. apply Hcd, uchar_inj. lia.
Qed.

Lemma hex_not_nul (d : byte) : hex_hi d <> NUL /\ hex_lo d <> NUL.
Proof. destruct d; split; discriminate. Qed.

(** The text produced by [digest2string] has no NUL inside. *)
Lemma digest2string_cstring (digest : list byte) (len : nat) :
  cstring (digest2string digest len).
Proof.
  unfold cstring. revert digest.
  induction len as [|len IH]; intros digest; simpl.
  - apply occurs_nil.
  - destruct digest as [|d digest]; [apply occurs_nil|].
    rewrite !occurs_cons. destruct (hex_not_nul d) as [Hh Hl].
    intros [H|[H|H]]; [now apply Hh | now apply Hl | now apply (IH digest)].
Qed.

(** The text [digest2string] writes for [len] bytes has [2 * len]
    characters, all of them lower-case hexadecimal digits. *)
Theorem digest2string_lowercase_hex (digest : list byte) (len : nat) :
  len <= List.length digest ->
  strlen (digest2string digest len) = 2 * len /\
  all_in (digest2string digest len) "0123456789abcdef" = true.
Proof.
  revert digest. induction len as [|len IH]; intros digest Hlen.
  - split; reflexivity.
  - destruct digest as [|d digest]; [simpl in Hlen; lia|].
    destruct (IH digest) as [Hn Hh]; [simpl in Hlen; lia|].
    split.
    + unfold strlen in *. simpl. rewrite Hn. lia.
    + simpl digest2string. simpl all_in. rewrite Hh.
      now destruct d.
Qed.

Lemma digest2string_lowercase_hex_witness :
  strlen (digest2string [x00; x0f; xa5; xff] 4) = 8 /\
  all_in (digest2string [x00; x0f; xa5; xff] 4) "0123456789abcdef" = true.
Proof.
  apply (digest2string_lowercase_hex [x00; x0f; xa5; xff] 4). simpl. lia.
Defined.

Example digest2string_sample :
  digest2string [x00; x0f; xa5; xff] 4 = "000fa5ff".
Proof. reflexivity. Qed.

Section WithSystem.

Variable sysconf_PAGESIZE : Z.
Variable sys_open : string -> sys nat.
Variable sys_fstat : nat -> sys Z.
Variable sys_mmap : nat -> Z -> sys (list byte).
Variable sys_munmap : list byte -> Z -> sys unit.
Variable SHA256 : list byte -> Z -> option (list byte).
Variable malloc : nat -> option string.
Variable ENOMEM ERANGE : Z.

Local Abbreviation get_file_hash :=
  (xbps_get_file_hash sysconf_PAGESIZE sys_open sys_fstat sys_mmap
     sys_munmap SHA256 malloc ENOMEM).
Local Abbreviation check_file_hash :=
  (xbps_check_file_hash sysconf_PAGESIZE sys_open sys_fstat sys_mmap
     sys_munmap SHA256 malloc ENOMEM ERANGE).

(** Whether a digest comes back, and which, does not depend on [errno]. *)
Lemma get_file_hash_errno (file : string) (e e' : Z) :
  fst (get_file_hash file e) = fst (get_file_hash file e').
Proof.
  unfold xbps_get_file_hash, strdup.
  repeat match goal with
         | |- context [match ?x with _ => _ end] => destruct x
         end; reflexivity.
Qed.

(** A returned digest is a C string. *)
Lemma get_file_hash_cstring (file : string) (e e' : Z) (h : string) :
  get_file_hash file e = (Some h, e') -> cstring h.
Proof.
  unfold xbps_get_file_hash, strdup.
  destruct (sys_open file) as [fd|]; [|discriminate].
  destruct (sys_fstat fd) as [st_size|]; [|discriminate].
  destruct (_ >? _)%Z; [discriminate|].
  destruct (_ <? _)%Z; [discriminate|].
  destruct (sys_mmap _ _) as [buf|]; [|discriminate].
  destruct (SHA256 _ _) as [digest|]; [|discriminate].
  destruct (malloc _); [|discriminate].
  intros H.
  assert (Hh : h = digest2string digest SHA256_DIGEST_LENGTH) by congruence.
  rewrite Hh. apply digest2string_cstring.
Qed.

(** C3. Verifying a file against the digest just computed for it
    succeeds: [xbps_check_file_hash] returns 0. *)
Theorem check_file_hash_roundtrip (file h : string) (e0 e1 e2 : Z) :
  xbps_get_file_hash sysconf_PAGESIZE sys_open sys_fstat sys_mmap sys_munmap
    SHA256 malloc ENOMEM file e0 = (Some h, e1) ->
  fst (xbps_check_file_hash sysconf_PAGESIZE sys_open sys_fstat sys_mmap
         sys_munmap SHA256 malloc ENOMEM ERANGE file h e2) = 0%Z.
Proof.
  intros H. unfold xbps_check_file_hash.
  pose proof (get_file_hash_errno file e0 e2) as He.
  rewrite H in He.
  destruct (get_file_hash file e2) as [[res|] e3]; simpl in He;
    [|discriminate He].
  injection He as <-. now rewrite strcmp_refl.
Qed.


End WithSystem.

Lemma check_file_hash_roundtrip_witness :
  fst (xbps_check_file_hash 4096 Samples.sample_open Samples.sample_fstat
         Samples.sample_mmap Samples.sample_munmap Samples.sample_SHA256
         Samples.sample_malloc Samples.ENOMEM Samples.ERANGE "/tmp/hello"
         Samples.hello_digest 0)
  = 0%Z.
Proof.
  apply (check_file_hash_roundtrip 4096 Samples.sample_open
           Samples.sample_fstat Samples.sample_mmap Samples.sample_munmap
           Samples.sample_SHA256 Samples.sample_malloc Samples.ENOMEM
           Samples.ERANGE "/tmp/hello" Samples.hello_digest 0 0 0).
  reflexivity.
Defined.



End DigestFacts.

(** ** Process-wide configuration *)

Section ConfigFacts.
Import CStr Config.

Variable PATH_MAX : Z.
Variable XBPS_CACHE_PATH : string.
Variable overlapping : string -> Z -> source -> source -> Z * string.

Local Abbreviation fits := (Config.fits PATH_MAX).
Local Abbreviation read_cachedir :=
  (Config.read_cachedir PATH_MAX XBPS_CACHE_PATH overlapping).
Local Abbreviation run := (Config.run PATH_MAX XBPS_CACHE_PATH overlapping).
Local Abbreviation set_cachedir :=
  (Config.xbps_set_cachedir PATH_MAX overlapping).
Local Abbreviation get_cachedir :=
  (Config.xbps_get_cachedir PATH_MAX XBPS_CACHE_PATH overlapping).

(** What [snprintf] returns and leaves in the buffer, by [fits]. *)
Lemma snprintf_path_fits (buf a b : string) :
  let out := a +:+ "/" +:+ b in
  let '(r, res) := snprintf_path buf (PATH_MAX - 1) a b in
  ((r =? -1)%Z || (r >=? PATH_MAX - 1)%Z = negb (fits out)) /\
  (fits out = true -> res = out).
Proof.
  unfold snprintf_path, Config.fits. cbv zeta.
  set (out := a +:+ "/" +:+ b). set (n := Z.of_nat (strlen out)).
  assert (Hn : (0 <= n)%Z) by (subst n; lia).
  destruct (Z.ltb_spec INT_MAX n) as [Hi|Hi].
  - split.
    + destruct (Z.leb_spec n INT_MAX); [lia | reflexivity].
    + destruct (Z.leb_spec n INT_MAX); [lia | discriminate].
  - destruct (Z.leb_spec n INT_MAX) as [_|]; [|lia].
    destruct (Z.eqb_spec n (-1)) as [|_]; [lia|].
    rewrite Z.geb_leb. simpl andb. simpl orb.
    destruct (Z.leb_spec (PATH_MAX - 1) n) as [Hp|Hp];
      destruct (Z.ltb_spec n (PATH_MAX - 1)) as [Hq|Hq]; try lia.
    simpl. split; [reflexivity|]. intros _.
    destruct (Z.leb_spec (PATH_MAX - 1) 0); [lia|].
    apply take_all. subst n. lia.
Qed.

Lemma strlen_take (n : nat) (s : string) : strlen (take n s) <= n.
Proof.
  revert s. induction n as [|n IH]; intros [|a s]; simpl; try lia.
  specialize (IH s). unfold strlen in *. lia.
Qed.

Lemma fits_bound (out : string) :
  fits out = true -> (Z.of_nat (strlen out) < PATH_MAX - 1)%Z.
Proof. unfold Config.fits. intros [_ H]%andb_true_iff. lia. Qed.

(** A text that [snprintf] wrote and the code accepted is shorter than
    [PATH_MAX - 1], also when an argument was the destination. *)
Lemma snprintf_static_bounded (dst : string) (a b : source) :
  let '(r, res) := snprintf_static overlapping dst (PATH_MAX - 1) a b in
  (r =? -1)%Z || (r >=? PATH_MAX - 1)%Z = false ->
  (Z.of_nat (strlen res) < PATH_MAX - 1)%Z.
Proof.
  assert (Hov : forall a' b',
            let '(r, res) :=
              (let '(r, out) := overlapping dst (PATH_MAX - 1) a' b' in
               (if (r <? 0)%Z then (-1)%Z else r,
                if (PATH_MAX - 1 <=? 0)%Z then dst
                else take (Z.to_nat (PATH_MAX - 1 - 1)) out)) in
            (r =? -1)%Z || (r >=? PATH_MAX - 1)%Z = false ->
            (Z.of_nat (strlen res) < PATH_MAX - 1)%Z).
  { intros a' b'. destruct (overlapping _ _ _ _) as [r out].
    rewrite Z.geb_leb.
    destruct (Z.ltb_spec r 0) as [Hr|Hr]; [discriminate|].
    intros [_ H]%orb_false_iff. apply Z.leb_gt in H.
    destruct (Z.leb_spec (PATH_MAX - 1) 0) as [|_]; [lia|].
    pose proof (strlen_take (Z.to_nat (PATH_MAX - 1 - 1)) out). lia. }
  destruct a as [sa|], b as [sb|]; try apply Hov.
  unfold snprintf_static.
  pose proof (snprintf_path_fits dst sa sb) as H. cbv zeta in H.
  destruct (snprintf_path dst (PATH_MAX - 1) sa sb) as [r res].
  destruct H as [-> Hres]. intros Hf%negb_false_iff.
  rewrite (Hres Hf). now apply fits_bound.
Qed.

(** A pointer outside a buffer is an argument that lies elsewhere. *)
Lemma source_set_other (st : state) (p : strptr) :
  p <> AtSetRes -> source_set st p = Other (text_of st p).
Proof. now destruct p. Qed.

Lemma source_get_other (st : state) (p : strptr) :
  p <> AtGetRes -> source_get st p = Other (text_of st p).
Proof. now destruct p. Qed.

Lemma get_rootdir_fst (st : state) :
  fst (xbps_get_rootdir st) = default (Ext "/") (rootdir st).
Proof. unfold xbps_get_rootdir. now destruct (rootdir st). Qed.

Lemma get_rootdir_snd (st : state) :
  rootdir (snd (xbps_get_rootdir st)) = Some (default (Ext "/") (rootdir st)) /\
  cachedir (snd (xbps_get_rootdir st)) = cachedir st /\
  flags (snd (xbps_get_rootdir st)) = flags st /\
  set_res (snd (xbps_get_rootdir st)) = set_res st /\
  get_res (snd (xbps_get_rootdir st)) = get_res st.
Proof. unfold xbps_get_rootdir. destruct (rootdir st) eqn:E; simpl; auto. Qed.

(** Reading the root directory leaves every text where it is. *)
Lemma get_rootdir_text (st : state) (p : strptr) :
  text_of (snd (xbps_get_rootdir st)) p = text_of st p.
Proof.
  destruct (get_rootdir_snd st) as (_ & _ & _ & Hs & Hg).
  destruct p; simpl; congruence.
Qed.

Lemma get_rootdir_idem (st : state) :
  fst (xbps_get_rootdir (snd (xbps_get_rootdir st))) = fst (xbps_get_rootdir st).
Proof. unfold xbps_get_rootdir. destruct (rootdir st) eqn:E; simpl; now rewrite ?E. Qed.

Lemma get_rootdir_default (st : state) :
  rootdir_default st ->
  fst (xbps_get_rootdir st) = Ext "/" /\
  rootdir_default (snd (xbps_get_rootdir st)).
Proof.
  unfold rootdir_default, xbps_get_rootdir.
  intros [H|H]; rewrite H; simpl; auto.
Qed.

Lemma get_rootdir_cachedir (st : state) :
  cachedir (snd (xbps_get_rootdir st)) = cachedir st.
Proof. unfold xbps_get_rootdir. now destruct (rootdir st). Qed.

(** [xbps_set_cachedir] writes its own buffer and the two pointers only,
    whatever its arguments point at; the cache directory is its buffer,
    with a text shorter than [PATH_MAX - 1], or the literal. *)
Lemma set_cachedir_frame (st : state) (dir : strptr) :
  flags (set_cachedir dir st) = flags st /\
  get_res (set_cachedir dir st) = get_res st /\
  rootdir (set_cachedir dir st) = Some (default (Ext "/") (rootdir st)) /\
  (cachedir (set_cachedir dir st) = CSetRes \/
   cachedir (set_cachedir dir st) = CLiteral) /\
  (cachedir (set_cachedir dir st) = CSetRes ->
   (Z.of_nat (strlen (set_res (set_cachedir dir st))) < PATH_MAX - 1)%Z).
Proof.
  unfold xbps_set_cachedir.
  destruct (get_rootdir_snd st) as (Hr & _ & Hf & _ & Hg).
  destruct (xbps_get_rootdir st) as [root st1]. simpl in Hr, Hf, Hg.
  pose proof (snprintf_static_bounded (set_res st1)
                (source_set st1 root) (source_set st1 dir)) as Hb.
  destruct (snprintf_static _ _ _ _ _) as [r res].
  destruct (_ || _); simpl.
  - repeat split; auto. discriminate.
  - repeat split; auto.
Qed.

(** [xbps_set_cachedir] with both texts outside its buffer, field by
    field. *)
Lemma set_cachedir_fields (st : state) (dir : strptr) :
  rootdir st <> Some AtSetRes -> dir <> AtSetRes ->
  let out :=
    text_of st (default (Ext "/") (rootdir st)) +:+ "/" +:+ text_of st dir in
  cachedir (set_cachedir dir st) = (if fits out then CSetRes else CLiteral) /\
  (fits out = true -> set_res (set_cachedir dir st) = out).
Proof.
  intros Hroot Hdir. cbv zeta. unfold xbps_set_cachedir.
  pose proof (get_rootdir_fst st) as Hf.
  pose proof (get_rootdir_text st) as Ht.
  destruct (xbps_get_rootdir st) as [root st1]. simpl in Hf, Ht.
  assert (Hr : root <> AtSetRes).
  { rewrite Hf. destruct (rootdir st) as [p|]; simpl; congruence. }
  rewrite (source_set_other st1 root Hr), (source_set_other st1 dir Hdir).
  rewrite !Ht, <- Hf. unfold snprintf_static.
  pose proof (snprintf_path_fits (set_res st1) (text_of st root)
                (text_of st dir)) as H.
  cbv zeta in H.
  destruct (snprintf_path _ _ _ _) as [r res].
  destruct H as [-> Hres].
  destruct (Config.fits PATH_MAX _); simpl; split; auto; discriminate.
Qed.

(** [xbps_get_cachedir] leaves the flags, the other buffer and the root
    directory alone, and returns what the cache directory then is. *)
Lemma get_cachedir_frame (st : state) :
  flags (snd (get_cachedir st)) = flags st /\
  set_res (snd (get_cachedir st)) = set_res st /\
  default (Ext "/") (rootdir (snd (get_cachedir st)))
  = default (Ext "/") (rootdir st) /\
  cachedir (snd (get_cachedir st)) = fst (get_cachedir st).
Proof.
  unfold xbps_get_cachedir. destruct (cachedir st) eqn:E; auto.
  destruct (get_rootdir_snd st) as (Hr & Hc & Hf & Hs & _).
  destruct (xbps_get_rootdir st) as [root st1]. simpl in *.
  destruct (snprintf_static _ _ _ _ _) as [r res].
  destruct (_ || _); simpl; rewrite ?Hr; repeat split; auto; congruence.
Qed.

(** A first read of the cache directory that succeeds leaves a text
    shorter than [PATH_MAX - 1] in its buffer. *)
Lemma get_cachedir_bounded (st : state) :
  cachedir st = CNull ->
  fst (get_cachedir st) = CGetRes ->
  (Z.of_nat (strlen (get_res (snd (get_cachedir st)))) < PATH_MAX - 1)%Z.
Proof.
  intros Hc. unfold xbps_get_cachedir. rewrite Hc.
  destruct (xbps_get_rootdir st) as [root st1].
  pose proof (snprintf_static_bounded (get_res st1)
                (source_get st1 root) (Other XBPS_CACHE_PATH)) as Hb.
  destruct (snprintf_static _ _ _ _ _) as [r res].
  destruct (_ || _); simpl; [discriminate|]. intros _. now apply Hb.
Qed.

(** [xbps_get_cachedir] on an unset cache directory, with the root
    directory outside its buffer. *)
Lemma get_cachedir_null (st : state) :
  cachedir st = CNull -> rootdir st <> Some AtGetRes ->
  let out :=
    text_of st (fst (xbps_get_rootdir st)) +:+ "/" +:+ XBPS_CACHE_PATH in
  let '(p, st') := get_cachedir st in
  cachedir st' = p /\
  p = (if fits out then CGetRes else CNull) /\
  (fits out = true -> get_res st' = out).
Proof.
  intros Hc Hroot. cbv zeta. unfold xbps_get_cachedir. rewrite Hc.
  pose proof (get_rootdir_cachedir st) as Hc1.
  pose proof (get_rootdir_fst st) as Hf.
  pose proof (get_rootdir_text st) as Ht.
  destruct (xbps_get_rootdir st) as [root st1]. simpl in Hc1, Hf, Ht.
  simpl fst.
  assert (Hr : root <> AtGetRes).
  { rewrite Hf. destruct (rootdir st) as [p|]; simpl; congruence. }
  rewrite (source_get_other st1 root Hr), Ht. unfold snprintf_static.
  pose proof (snprintf_path_fits (get_res st1) (text_of st root)
                XBPS_CACHE_PATH) as H.
  cbv zeta in H.
  destruct (snprintf_path _ _ _ _) as [r res].
  destruct H as [-> Hres].
  destruct (Config.fits PATH_MAX _); simpl.
  - auto.
  - repeat split; [congruence | discriminate].
Qed.

(** A set cache directory is read back as it is. *)
Lemma get_cachedir_set (st : state) :
  cachedir st <> CNull -> get_cachedir st = (cachedir st, st).
Proof. unfold xbps_get_cachedir. now destruct (cachedir st). Qed.

Lemma run_keeps_default_rootdir (cs : list call) (st : state) :
  rootdir_default st ->
  forallb (fun c => negb (sets_rootdir c)) cs = true ->
  rootdir_default (run cs st).
Proof.
  revert st. induction cs as [|c cs IH]; intros st Hst; simpl; [auto|].
  intros [Hc Hcs]%andb_true_iff. apply IH; [|assumption].
  assert (Hd : default (Ext "/") (rootdir st) = Ext "/")
    by (destruct Hst as [H|H]; now rewrite H).
  destruct c; simpl in *; try discriminate.
  - now apply get_rootdir_default.
  - right. destruct (set_cachedir_frame st dir) as (_ & _ & -> & _).
    now rewrite Hd.
  - destruct (get_cachedir_frame st) as (_ & _ & H & _).
    rewrite Hd in H. unfold rootdir_default.
    destruct (rootdir (snd (get_cachedir st))); simpl in H; [right|left];
      congruence.
  - assumption.
Qed.

(** As long as no call touches the cache directory, it stays unset and
    the root directory points at no static buffer. *)
Lemma run_keeps_null_cachedir (cs : list call) (st : state) :
  cachedir st = CNull /\
  rootdir st <> Some AtSetRes /\ rootdir st <> Some AtGetRes ->
  forallb (fun c => negb (uses_cachedir c)) cs = true ->
  cachedir (run cs st) = CNull /\
  rootdir (run cs st) <> Some AtSetRes /\ rootdir (run cs st) <> Some AtGetRes.
Proof.
  revert st. induction cs as [|c cs IH]; intros st Hst; simpl; [auto|].
  intros [Hc Hcs]%andb_true_iff. apply IH; [|assumption].
  destruct Hst as (Hn & Hs & Hg).
  destruct c as [dir| | | |]; simpl in *; try discriminate.
  - destruct dir; try discriminate. repeat split; [assumption | | ]; discriminate.
  - destruct (get_rootdir_snd st) as (-> & -> & _).
    repeat split; [assumption | |];
      destruct (rootdir st) as [[]|]; simpl; congruence.
  - repeat split; assumption.
Qed.

(** C9, as the code has it. In a program that never called
    [xbps_set_rootdir], reading the root directory returns ["/"], and so
    does the next read. In a program that has not yet called
    [xbps_set_cachedir] or [xbps_get_cachedir], reading the cache directory
    returns the root directory, ["/"] and [XBPS_CACHE_PATH] when that text
    fits the static buffer (it is shorter than [PATH_MAX - 1]); otherwise
    the read returns NULL and leaves the cache directory unset. *)
Theorem defaults_on_first_read (cs : list call) :
  let st := run cs initial in
  (forallb (fun c => negb (sets_rootdir c)) cs = true ->
     fst (xbps_get_rootdir st) = Ext "/" /\
     fst (xbps_get_rootdir (snd (xbps_get_rootdir st))) = Ext "/") /\
  (forallb (fun c => negb (uses_cachedir c)) cs = true ->
     let out :=
       text_of st (fst (xbps_get_rootdir st)) +:+ "/" +:+ XBPS_CACHE_PATH in
     read_cachedir st = (if fits out then Some out else None) /\
     (fits out = false ->
        cachedir
          (snd (xbps_get_cachedir PATH_MAX XBPS_CACHE_PATH overlapping st))
        = CNull)).
Proof.
  cbv zeta. split.
  - intros Hcs.
    assert (Hd : rootdir_default (run cs initial)).
    { apply run_keeps_default_rootdir; [now left | assumption]. }
    rewrite get_rootdir_idem. split; now apply get_rootdir_default.
  - intros Hcs.
    assert (Hn : cachedir (run cs initial) = CNull /\
                 rootdir (run cs initial) <> Some AtSetRes /\
                 rootdir (run cs initial) <> Some AtGetRes).
    { apply run_keeps_null_cachedir; [|assumption].
      split; [reflexivity | split; discriminate]. }
    destruct Hn as (Hn & _ & Hg).
    pose proof (get_cachedir_null _ Hn Hg) as H. cbv zeta in H.
    unfold Config.read_cachedir.
    destruct (get_cachedir (run cs initial)) as [p st'].
    destruct H as (Hp & -> & Hres). simpl snd.
    destruct (Config.fits PATH_MAX _) eqn:E; simpl.
    + split; [now rewrite Hres | discriminate].
    + split; [reflexivity | now intros _].
Qed.


End ConfigFacts.

Section ConfigSamples.
Import CStr Config.

Lemma defaults_on_first_read_witness :
  (fst (xbps_get_rootdir
          (Config.run Samples.PATH_MAX Samples.XBPS_CACHE_PATH
             Samples.forward_snprintf [SetFlags 1; GetCachedir] initial))
   = Ext "/" /\
   fst (xbps_get_rootdir
          (snd (xbps_get_rootdir
                  (Config.run Samples.PATH_MAX Samples.XBPS_CACHE_PATH
                     Samples.forward_snprintf [SetFlags 1; GetCachedir]
                     initial)))) = Ext "/") /\
  Config.read_cachedir Samples.PATH_MAX Samples.XBPS_CACHE_PATH
    Samples.forward_snprintf
    (Config.run Samples.PATH_MAX Samples.XBPS_CACHE_PATH
       Samples.forward_snprintf [SetRootdir (Ext "/mnt"); GetRootdir] initial)
  = Some "/mnt/var/cache/xbps".
Proof.
  split.
  - apply (defaults_on_first_read Samples.PATH_MAX Samples.XBPS_CACHE_PATH
             Samples.forward_snprintf [SetFlags 1%Z; GetCachedir]).
    reflexivity.
  - apply (defaults_on_first_read Samples.PATH_MAX Samples.XBPS_CACHE_PATH
             Samples.forward_snprintf [SetRootdir (Ext "/mnt"); GetRootdir]).
    reflexivity.
Defined.

(** C9 as the specification words it fails for a long root directory: the
    cache directory was never set, and its first read returns NULL, not the
    root directory followed by ["/"] and [XBPS_CACHE_PATH]. *)
Lemma first_cachedir_read_can_fail :
  Config.read_cachedir Samples.PATH_MAX Samples.XBPS_CACHE_PATH
    Samples.forward_snprintf
    (xbps_set_rootdir (Ext Samples.long_rootdir) initial) = None /\
  Config.read_cachedir Samples.PATH_MAX Samples.XBPS_CACHE_PATH
    Samples.forward_snprintf
    (xbps_set_rootdir (Ext Samples.long_rootdir) initial) <>
  Some (text_of (xbps_set_rootdir (Ext Samples.long_rootdir) initial)
          (fst (xbps_get_rootdir
                  (xbps_set_rootdir (Ext Samples.long_rootdir) initial)))
        +:+ "/" +:+ Samples.XBPS_CACHE_PATH).
Proof.
  assert (H : Config.read_cachedir Samples.PATH_MAX Samples.XBPS_CACHE_PATH
                Samples.forward_snprintf
                (xbps_set_rootdir (Ext Samples.long_rootdir) initial) = None)
    by (vm_compute; reflexivity).
  split; [assumption|]. rewrite H. discriminate.
Qed.



Example set_cachedir_samples :
  Config.read_cachedir Samples.PATH_MAX Samples.XBPS_CACHE_PATH
    Samples.forward_snprintf
    (xbps_set_cachedir Samples.PATH_MAX Samples.forward_snprintf
       (Ext "cache") (xbps_set_rootdir (Ext "/mnt") initial))
  = Some "/mnt/cache" /\
  Config.read_cachedir Samples.PATH_MAX Samples.XBPS_CACHE_PATH
    Samples.forward_snprintf
    (xbps_set_cachedir Samples.PATH_MAX Samples.forward_snprintf
       (Ext "cache") initial) = Some "//cache" /\
  Config.read_cachedir Samples.PATH_MAX Samples.XBPS_CACHE_PATH
    Samples.forward_snprintf
    (xbps_set_cachedir Samples.PATH_MAX Samples.forward_snprintf
       (Ext Samples.long_rootdir) initial)
  = Some "var/cache/xbps".
Proof. vm_compute. repeat split. Qed.

End ConfigSamples.

(** ** Installed-package check *)

Section InstalledFacts.
Import CStr Location.

Variable malloc : nat -> option string.
Variable find : string -> bool -> lookup.
Variable state_of : gmap string prop_object -> Z -> Z * Z.
Variable pattern_match : string -> string -> Z.
Variable XBPS_PKG_STATE_INSTALLED ENOENT : Z.

(** C1, as the code has it. For a pattern without ['>'], ['<'] or ['=']
    [xbps_check_is_installed_pkg] returns the error value [-1], whatever the
    store holds. For a pattern with one, it looks up the text before the
    first of them and returns 0, not installed, when the store has no such
    record ([ENOENT]). *)
Theorem installed_check_requires_constraint (pkg : string) :
  (~ occurs_any "><=" pkg ->
     xbps_check_is_installed_pkg malloc find state_of pattern_match
       XBPS_PKG_STATE_INSTALLED ENOENT pkg = (-1)%Z) /\
  (forall pre c suf,
     (forall n, is_Some (malloc n)) ->
     pkg = pre +:+ String c suf -> in_set c "><=" = true ->
     ~ occurs_any "><=" pre ->
     find pre false = Missing ENOENT ->
     xbps_check_is_installed_pkg malloc find state_of pattern_match
       XBPS_PKG_STATE_INSTALLED ENOENT pkg = 0%Z).
Proof.
  unfold xbps_check_is_installed_pkg, Ident.xbps_get_pkgpattern_name. split.
  - intros H. apply strpbrk_none in H. now rewrite H.
  - intros pre c suf Hm -> Hc Hpre Hfind.
    rewrite (strpbrk_first pre suf "><=" c Hc Hpre).
    rewrite copy_prefix by assumption. rewrite Hfind.
    now rewrite Z.eqb_refl.
Qed.

(** A record that is found but whose state is not
    [XBPS_PKG_STATE_INSTALLED] counts as not installed: the check returns
    0 without comparing versions. *)
Theorem not_fully_installed_is_not_installed
    (pkg pre suf : string) (c : ascii)
    (d : gmap string prop_object) (state : Z) :
  (forall n, is_Some (malloc n)) ->
  pkg = pre +:+ String c suf -> in_set c "><=" = true ->
  ~ occurs_any "><=" pre ->
  find pre false = Found d ->
  state_of d 0%Z = (0%Z, state) -> state <> XBPS_PKG_STATE_INSTALLED ->
  xbps_check_is_installed_pkg malloc find state_of pattern_match
    XBPS_PKG_STATE_INSTALLED ENOENT pkg = 0%Z.
Proof.
  intros Hm -> Hc Hpre Hfind Hstate Hne.
  unfold xbps_check_is_installed_pkg, Ident.xbps_get_pkgpattern_name.
  rewrite (strpbrk_first pre suf "><=" c Hc Hpre).
  rewrite copy_prefix by assumption. rewrite Hfind, Hstate. simpl.
  now destruct (Z.eqb_spec state XBPS_PKG_STATE_INSTALLED).
Qed.

End InstalledFacts.

Section InstalledSamples.
Import CStr Location.

Lemma installed_check_requires_constraint_witness :
  xbps_check_is_installed_pkg Samples.sample_malloc Samples.sample_find
    Samples.sample_state Samples.sample_match
    Samples.XBPS_PKG_STATE_INSTALLED Samples.ENOENT "foo" = (-1)%Z /\
  xbps_check_is_installed_pkg Samples.sample_malloc Samples.sample_find
    Samples.sample_state Samples.sample_match
    Samples.XBPS_PKG_STATE_INSTALLED Samples.ENOENT "bar>=1.0" = 0%Z.
Proof.
  split.
  - apply (installed_check_requires_constraint Samples.sample_malloc
             Samples.sample_find Samples.sample_state Samples.sample_match
             Samples.XBPS_PKG_STATE_INSTALLED Samples.ENOENT "foo").
    apply strpbrk_none. reflexivity.
  - apply (proj2 (installed_check_requires_constraint Samples.sample_malloc
             Samples.sample_find Samples.sample_state Samples.sample_match
             Samples.XBPS_PKG_STATE_INSTALLED Samples.ENOENT "bar>=1.0")
             "bar" ">"%char "=1.0").
    + intros n. exists "". reflexivity.
    + reflexivity.
    + reflexivity.
    + apply strpbrk_none. reflexivity.
    + reflexivity.
Defined.

Lemma not_fully_installed_is_not_installed_witness :
  xbps_check_is_installed_pkg Samples.sample_malloc Samples.sample_find
    (fun _ _ => (0%Z, 1%Z)) Samples.sample_match
    Samples.XBPS_PKG_STATE_INSTALLED Samples.ENOENT "foo>=1.0" = 0%Z.
Proof.
  apply (not_fully_installed_is_not_installed Samples.sample_malloc
           Samples.sample_find (fun _ _ => (0%Z, 1%Z)) Samples.sample_match
           Samples.XBPS_PKG_STATE_INSTALLED Samples.ENOENT
           "foo>=1.0" "foo" "=1.0" ">"%char Samples.foo_record 1%Z).
  - intros n. exists "". reflexivity.
  - reflexivity.
  - reflexivity.
  - apply strpbrk_none. reflexivity.
  - reflexivity.
  - reflexivity.
  - discriminate.
Defined.

(** C1 as the specification words it fails: a bare name is an error for
    the check, both when the store has the package installed and when it has
    no record of it. *)
Lemma bare_name_is_an_error :
  Samples.sample_find "bar" false = Missing Samples.ENOENT /\
  xbps_check_is_installed_pkg Samples.sample_malloc Samples.sample_find
    Samples.sample_state Samples.sample_match
    Samples.XBPS_PKG_STATE_INSTALLED Samples.ENOENT "bar" = (-1)%Z /\
  Samples.sample_find "foo" false = Found Samples.foo_record /\
  xbps_check_is_installed_pkg Samples.sample_malloc Samples.sample_find
    Samples.sample_state Samples.sample_match
    Samples.XBPS_PKG_STATE_INSTALLED Samples.ENOENT "foo" = (-1)%Z /\
  xbps_check_is_installed_pkgname Samples.sample_find "foo" = true.
Proof. repeat split. Qed.

End InstalledSamples.

(** ** Cached archive path *)

Section BinpkgFacts.
Import CStr Location.

Variable malloc : nat -> option string.
Variable PATH_MAX : Z.
Variable XBPS_CACHE_PATH : string.
Variable overlapping :
  string -> Z -> Config.source -> Config.source -> Z * string.

Local Abbreviation get_binpkg_local_path :=
  (xbps_get_binpkg_local_path malloc PATH_MAX XBPS_CACHE_PATH overlapping).
Local Abbreviation read_cachedir :=
  (Config.read_cachedir PATH_MAX XBPS_CACHE_PATH overlapping).

Lemma get_cstring_present
    (d : gmap string prop_object) (key s : string) (cp : cvalue) :
  d !! key = Some (PString s) ->
  fmt_arg (snd (prop_dictionary_get_cstring_nocopy d key cp)) = Some s.
Proof. unfold prop_dictionary_get_cstring_nocopy. now intros ->. Qed.

Lemma xasprintf_total (out : string) :
  (forall n, is_Some (malloc n)) -> xbps_xasprintf malloc out = Some out.
Proof.
  intros Hm. unfold xbps_xasprintf. now destruct (Hm (strlen out + 1)) as [b ->].
Qed.

(** C2, as the code has it. [xbps_get_binpkg_local_path] first resolves the
    cache directory and returns NULL when that fails, whatever the record
    and the location. Otherwise, when the allocation succeeds: for a remote
    location and a record with a ["filename"] string it returns the cache
    directory, ["/"] and the file name, without looking at
    ["architecture"]; for a local location and a record with both strings
    it returns the location, the architecture and the file name, separated
    by ["/"]. *)
Theorem binpkg_local_path_resolved
    (pkgd : gmap string prop_object) (repoloc : string) (st : Config.state) :
  (forall n, is_Some (malloc n)) ->
  (read_cachedir st = None ->
     fst (get_binpkg_local_path pkgd repoloc st) = Returns None) /\
  (forall cdir f,
     read_cachedir st = Some cdir ->
     pkgd !! "filename" = Some (PString f) ->
     (xbps_check_is_repo_string_remote repoloc = true ->
        fst (get_binpkg_local_path pkgd repoloc st)
        = Returns (Some (cdir +:+ "/" +:+ f))) /\
     (forall a,
        xbps_check_is_repo_string_remote repoloc = false ->
        pkgd !! "architecture" = Some (PString a) ->
        fst (get_binpkg_local_path pkgd repoloc st)
        = Returns (Some (repoloc +:+ "/" +:+ a +:+ "/" +:+ f)))).
Proof.
  intros Hm. unfold xbps_get_binpkg_local_path, Config.read_cachedir.
  destruct (Config.xbps_get_cachedir PATH_MAX XBPS_CACHE_PATH overlapping st)
    as [p st'].
  split.
  - now intros ->.
  - intros cdir f -> Hf.
    rewrite (get_cstring_present pkgd "filename" f Indeterminate Hf).
    split.
    + intros ->. simpl. now rewrite xasprintf_total.
    + intros a -> Ha.
      rewrite (get_cstring_present pkgd "architecture" a Indeterminate Ha).
      simpl. now rewrite xasprintf_total.
Qed.

End BinpkgFacts.

Section BinpkgSamples.
Import CStr Location.

Lemma binpkg_local_path_resolved_witness :
  fst (xbps_get_binpkg_local_path Samples.sample_malloc Samples.PATH_MAX
         Samples.XBPS_CACHE_PATH Samples.forward_snprintf Samples.full_record "/srv/repo"
         Config.initial)
  = Returns (Some "/srv/repo/x86_64/foo-1.0.x86_64.xbps") /\
  fst (xbps_get_binpkg_local_path Samples.sample_malloc Samples.PATH_MAX
         Samples.XBPS_CACHE_PATH Samples.forward_snprintf Samples.full_record
         "http://repo.example.org/current" Config.initial)
  = Returns (Some "//var/cache/xbps/foo-1.0.x86_64.xbps").
Proof.
  assert (Hm : forall n, is_Some (Samples.sample_malloc n))
    by (intros n; exists ""; reflexivity).
  split.
  - destruct (binpkg_local_path_resolved Samples.sample_malloc
                Samples.PATH_MAX Samples.XBPS_CACHE_PATH
                Samples.forward_snprintf Samples.full_record "/srv/repo" Config.initial Hm)
      as [_ H].
    destruct (H "//var/cache/xbps" "foo-1.0.x86_64.xbps") as [_ Hlocal];
      [reflexivity | reflexivity |].
    apply (Hlocal "x86_64"); reflexivity.
  - destruct (binpkg_local_path_resolved Samples.sample_malloc
                Samples.PATH_MAX Samples.XBPS_CACHE_PATH
                Samples.forward_snprintf Samples.full_record "http://repo.example.org/current"
                Config.initial Hm)
      as [_ H].
    destruct (H "//var/cache/xbps" "foo-1.0.x86_64.xbps") as [Hremote _];
      [reflexivity | reflexivity |].
    apply Hremote; reflexivity.
Defined.

(** C2 as the specification words it fails. A record without
    ["architecture"] resolves against a remote location; a record with both
    fields yields NULL against a local location when the cache directory
    cannot be resolved; and a record without ["filename"] is not answered
    by a failure: the path is formatted from a pointer nothing was stored
    in. *)
Lemma missing_field_is_not_checked :
  Samples.no_arch_record !! "architecture" = None /\
  fst (xbps_get_binpkg_local_path Samples.sample_malloc Samples.PATH_MAX
         Samples.XBPS_CACHE_PATH Samples.forward_snprintf Samples.no_arch_record
         "http://repo.example.org/current" Config.initial)
  = Returns (Some "//var/cache/xbps/foo-1.0.x86_64.xbps") /\
  fst (xbps_get_binpkg_local_path Samples.sample_malloc Samples.PATH_MAX
         Samples.XBPS_CACHE_PATH Samples.forward_snprintf Samples.full_record "/srv/repo"
         (Config.xbps_set_rootdir (Config.Ext Samples.long_rootdir)
            Config.initial))
  = Returns None /\
  Samples.no_filename_record !! "filename" = None /\
  fst (xbps_get_binpkg_local_path Samples.sample_malloc Samples.PATH_MAX
         Samples.XBPS_CACHE_PATH Samples.forward_snprintf Samples.no_filename_record "/srv/repo"
         Config.initial)
  = Undefined.
Proof. vm_compute. repeat split. Qed.

End BinpkgSamples.

(** ** Interactive confirmation *)

Section PromptFacts.
Import CStr Location Prompt.

Lemma append_nil_r (s : string) : s +:+ "" = s.
Proof. induction s as [|a s IH]; [reflexivity|]. now rewrite append_cons, IH. Qed.

Lemma take_drop (n : nat) (s : string) : take n s +:+ drop n s = s.
Proof.
  revert s. induction n as [|n IH]; intros [|a s]; try reflexivity.
  simpl. now rewrite append_cons, IH.
Qed.

Lemma get_lt (s : string) (j : nat) (x : ascii) :
  String.get j s = Some x -> j < strlen s.
Proof.
  revert j. induction s as [|a s IH]; intros j; simpl; [discriminate|].
  destruct j as [|j]; unfold strlen in *; simpl; [lia|].
  intros H. apply IH in H. lia.
Qed.

Lemma lt_get (s : string) (j : nat) :
  j < strlen s -> exists x, String.get j s = Some x.
Proof.
  revert j. induction s as [|a s IH]; intros j; unfold strlen in *; simpl;
    [lia|].
  destruct j as [|j]; [now exists a|]. intros H. apply IH. lia.
Qed.

Lemma get_drop (n j : nat) (s : string) :
  String.get j (drop n s) = String.get (n + j) s.
Proof.
  revert s. induction n as [|n IH]; intros s; [reflexivity|].
  destruct s as [|a s]; simpl; [now destruct j | apply IH].
Qed.

Lemma all_space_get (s : string) :
  (forall j x, String.get j s = Some x -> isspace x = true) ->
  all_space s = true.
Proof.
  induction s as [|a s IH]; intros H; simpl; [reflexivity|].
  rewrite (H 0 a eq_refl). apply IH. intros j x Hj. now apply (H (S j)).
Qed.

Lemma get_take_snoc (i : nat) (s : string) (c : ascii) :
  String.get i s = Some c -> take (S i) s = take i s +:+ String c "".
Proof.
  revert s. induction i as [|i IH]; intros [|a s]; simpl; try discriminate.
  - now intros [= ->].
  - intros H. rewrite append_cons. f_equal. now apply IH.
Qed.

Lemma snoc_inj (u v : string) (x c : ascii) :
  u +:+ String x "" = v +:+ String c "" -> x = c.
Proof.
  revert v. induction u as [|a u IH]; intros [|b v];
    rewrite ?append_nil, ?append_cons; intros H.
  - congruence.
  - injection H as _ H. destruct v; discriminate H.
  - injection H as _ H. destruct u; discriminate H.
  - injection H as _ H. now apply (IH v).
Qed.

Lemma skip_space_spec (s : string) :
  exists l, s = l +:+ skip_space s /\ all_space l = true /\
            (forall a r, skip_space s = String a r -> isspace a = false).
Proof.
  induction s as [|a s (l & Hs & Hl & Hfirst)]; simpl.
  - exists "". repeat split. discriminate.
  - destruct (isspace a) eqn:E.
    + exists (String a l). rewrite append_cons, <- Hs. simpl. rewrite E.
      auto.
    + exists "". repeat split. now intros b r [= <- _].
Qed.

(** Where the backward scan stops: on a character that is not white
    space, with only white space between it and the start index. *)
Lemma scan_back_some (s : string) (n i : nat) :
  scan_back s n = Some i ->
  i <= n /\ (exists c, String.get i s = Some c /\ isspace c = false) /\
  (forall j, i < j <= n -> exists x, String.get j s = Some x /\ isspace x = true).
Proof.
  induction n as [|n IH]; simpl.
  - destruct (String.get 0 s) as [c|] eqn:E; [|discriminate].
    destruct (isspace c) eqn:Ec; [discriminate|]. intros [= <-].
    split; [lia|]. split; [eauto|]. intros j Hj. lia.
  - destruct (String.get (S n) s) as [c|] eqn:E; [|discriminate].
    destruct (isspace c) eqn:Ec.
    + intros H. destruct (IH H) as (Hle & Hc & Hsp).
      split; [lia|]. split; [assumption|].
      intros j Hj. destruct (Nat.eq_dec j (S n)) as [->|]; [eauto|].
      apply Hsp. lia.
    + intros [= <-]. split; [lia|]. split; [eauto|]. intros j Hj. lia.
Qed.

Lemma scan_back_stop (s : string) (i : nat) (c : ascii) :
  String.get i s = Some c -> isspace c = false -> scan_back s i = Some i.
Proof. intros Hc Hcs. destruct i; simpl; now rewrite Hc, Hcs. Qed.

(** The backward scan leaves the string only if all it read is white
    space. *)
Lemma scan_back_none (s : string) (n : nat) :
  scan_back s n = None -> n < strlen s ->
  exists x, String.get 0 s = Some x /\ isspace x = true.
Proof.
  induction n as [|n IH]; simpl; intros H Hn.
  - destruct (lt_get s 0 Hn) as [c E]. rewrite E in H.
    destruct (isspace c) eqn:Ec; [eauto | discriminate].
  - destruct (lt_get s (S n) Hn) as [c E]. rewrite E in H.
    destruct (isspace c); [|discriminate]. apply IH; [assumption | lia].
Qed.

(** What [strtrim] leaves in the buffer. *)
Lemma strtrim_spec (s : string) :
  exists t l r,
    strtrim (Some s) = Returns (Some t) /\
    s = l +:+ t +:+ r /\ all_space l = true /\ all_space r = true /\
    trimmed t.
Proof.
  assert (Hnil : trimmed "").
  { split; [discriminate|]. intros u a H. destruct u; discriminate H. }
  destruct s as [|a0 s0]; [now exists "", "", ""|].
  set (s := String a0 s0).
  destruct (skip_space_spec s) as (l & Hs & Hl & Hfirst).
  assert (Hdef : strtrim (Some s) =
                 match skip_space s with
                 | "" => Returns (Some "")
                 | _ => match scan_back (skip_space s)
                                (strlen (skip_space s) - 1) with
                        | None => Undefined
                        | Some i => Returns (Some (take (i + 1) (skip_space s)))
                        end
                 end) by reflexivity.
  rewrite Hdef. clear Hdef.
  destruct (skip_space s) as [|a s1] eqn:E.
  - exists "", l, "". rewrite Hs. auto.
  - pose proof (Hfirst a s1 eq_refl) as Ha.
    set (t0 := String a s1) in *.
    assert (Hlen : strlen t0 - 1 < strlen t0) by (unfold strlen; simpl; lia).
    destruct (scan_back t0 (strlen t0 - 1)) as [i|] eqn:Eb.
    + destruct (scan_back_some _ _ _ Eb) as (Hle & (c & Hc & Hcs) & Hsp).
      exists (take (i + 1) t0), l, (drop (i + 1) t0).
      split; [reflexivity|]. split; [now rewrite take_drop|].
      split; [assumption|]. split.
      * apply all_space_get. intros j x Hj. rewrite get_drop in Hj.
        destruct (Hsp (i + 1 + j)) as (y & Hy & Hys).
        { apply get_lt in Hj. lia. }
        congruence.
      * replace (i + 1) with (S i) by lia. split.
        -- simpl. now intros b r [= <- _].
        -- rewrite (get_take_snoc i t0 c Hc). intros u b H.
           apply snoc_inj in H. congruence.
    + destruct (scan_back_none _ _ Eb Hlen) as (x & Hx & Hxs).
      simpl in Hx. congruence.
Qed.

Lemma all_space_append (s t : string) :
  all_space (s +:+ t) = all_space s && all_space t.
Proof.
  induction s as [|a s IH]; [reflexivity|].
  rewrite append_cons. simpl. rewrite IH. now destruct (isspace a).
Qed.

(** [strtrim] never reads outside its buffer, and leaves in it the text
    without the white space at its two ends: what is cut off in front and
    behind is white space only, and what is left starts and ends with other
    characters. Of a text of white space only nothing is left. *)
Theorem strtrim_cuts_both_ends (s : string) :
  strtrim (Some s) <> Undefined /\
  exists t l r,
    strtrim (Some s) = Returns (Some t) /\
    s = l +:+ t +:+ r /\ all_space l = true /\ all_space r = true /\
    trimmed t /\ (all_space s = true -> t = "").
Proof.
  destruct (strtrim_spec s) as (t & l & r & Ht & Hs & Hl & Hr & Htr).
  split; [rewrite Ht; discriminate|].
  exists t, l, r. repeat split; try assumption; try apply Htr.
  intros Hall. rewrite Hs, !all_space_append in Hall.
  destruct t as [|a t']; [reflexivity|].
  change (all_space (String a t')) with (isspace a && all_space t') in Hall.
  rewrite (proj1 Htr a t' eq_refl) in Hall. simpl in Hall.
  rewrite andb_false_r in Hall. discriminate Hall.
Qed.

(** A text that neither starts nor ends with white space is left as it
    is. *)
Lemma strtrim_trimmed (t : string) :
  trimmed t -> strtrim (Some t) = Returns (Some t).
Proof.
  intros [Hfirst Hlast]. destruct t as [|a r]; [reflexivity|].
  set (t := String a r) in *.
  assert (Hskip : skip_space t = t).
  { subst t. simpl. now rewrite (Hfirst a r eq_refl). }
  assert (Hdef : strtrim (Some t) =
                 match scan_back (skip_space t) (strlen (skip_space t) - 1) with
                 | None => Undefined
                 | Some i => Returns (Some (take (i + 1) (skip_space t)))
                 end).
  { subst t. unfold strtrim. simpl skip_space.
    now rewrite (Hfirst a r eq_refl). }
  rewrite Hdef, Hskip. clear Hdef Hskip.
  assert (Hlen : strlen t - 1 < strlen t) by (unfold strlen; simpl; lia).
  destruct (lt_get t _ Hlen) as [c Hc].
  assert (Ht : t = take (strlen t - 1) t +:+ String c "").
  { rewrite <- (get_take_snoc _ _ _ Hc).
    symmetry. apply take_all. lia. }
  assert (Hcs : isspace c = false) by (apply (Hlast _ _ Ht)).
  rewrite (scan_back_stop _ _ _ Hc Hcs). f_equal. f_equal. apply take_all. lia.
Qed.

(** Trimming twice changes nothing more: [strtrim] leaves its own result
    as it is. *)
Theorem strtrim_idempotent (s t : string) :
  strtrim (Some s) = Returns (Some t) -> strtrim (Some t) = Returns (Some t).
Proof.
  intros H. destruct (strtrim_spec s) as (t' & l & r & Ht & _ & _ & _ & Htr).
  rewrite H in Ht. injection Ht as ->. now apply strtrim_trimmed.
Qed.

Lemma strtrim_idempotent_witness :
  strtrim (Some "yes") = Returns (Some "yes").
Proof. apply (strtrim_idempotent "  yes  " "yes"). reflexivity. Defined.

Lemma tolower_nul (c : ascii) : tolower c = NUL -> c = NUL.
Proof. destruct c as [[] [] [] [] [] [] [] []]; vm_compute; congruence. Qed.

(** On C strings [strcasecmp] is 0 exactly for texts equal up to case. *)
Lemma strcasecmp_eq (a b : string) :
  no_nul a = true -> no_nul b = true ->
  (strcasecmp a b = 0%Z <-> lower a = lower b).
Proof.
  revert b. induction a as [|c a IH]; intros [|d b]; simpl;
    try (intros _ _; split; [reflexivity | reflexivity]).
  - intros _ [Hd _]%andb_true_iff. split; [|discriminate].
    intros H. assert (Hz : tolower d = NUL) by (apply uchar_zero; lia).
    apply tolower_nul in Hz. subst d. discriminate Hd.
  - intros [Hc _]%andb_true_iff _. split; [|discriminate].
    intros H. apply uchar_zero, tolower_nul in H. subst c. discriminate Hc.
  - intros [_ Ha]%andb_true_iff [_ Hb]%andb_true_iff.
    destruct (Ascii.eqb_spec (tolower c) (tolower d)) as [E|E].
    + rewrite (IH b Ha Hb), E. split; [now intros -> | now intros [= ->]].
    + split; [|congruence]. intros H. exfalso. apply E, uchar_inj. lia.
Qed.

Lemma no_nul_cstr_of (bytes : string) : no_nul (cstr_of bytes) = true.
Proof.
  induction bytes as [|a r IH]; simpl; [reflexivity|].
  destruct (Ascii.eqb a NUL) eqn:E; simpl; [reflexivity|]. now rewrite E.
Qed.

Lemma no_nul_skip_space (s : string) :
  no_nul s = true -> no_nul (skip_space s) = true.
Proof.
  induction s as [|a r IH]; simpl; [reflexivity|].
  intros H. destruct (isspace a); [|assumption].
  apply andb_true_iff in H. now apply IH.
Qed.

Lemma no_nul_take (n : nat) (s : string) :
  no_nul s = true -> no_nul (take n s) = true.
Proof.
  revert s. induction n as [|n IH]; intros [|a r]; simpl; try reflexivity.
  intros [Ha Hr]%andb_true_iff. now rewrite Ha, IH.
Qed.

Lemma strtrim_no_nul (s t : string) :
  no_nul s = true -> strtrim (Some s) = Returns (Some t) -> no_nul t = true.
Proof.
  intros Hs. destruct s as [|a0 s0]; [now intros [= <-]|].
  set (s := String a0 s0) in *.
  assert (Hdef : strtrim (Some s) =
                 match skip_space s with
                 | "" => Returns (Some "")
                 | _ => match scan_back (skip_space s)
                                (strlen (skip_space s) - 1) with
                        | None => Undefined
                        | Some i => Returns (Some (take (i + 1) (skip_space s)))
                        end
                 end) by reflexivity.
  rewrite Hdef. pose proof (no_nul_skip_space s Hs) as Hk.
  destruct (skip_space s) as [|a s1]; [now intros [= <-]|].
  destruct (scan_back _ _); [|discriminate].
  intros [= <-]. now apply no_nul_take.
Qed.

Lemma read_line_short (n : nat) (l rest : string) :
  strlen l < n -> ~ occurs newline l ->
  read_line n (l +:+ String newline rest) = (l +:+ String newline "", rest).
Proof.
  revert n. induction l as [|a l IH]; intros [|n]; unfold strlen; simpl;
    try lia.
  - intros _ _. rewrite append_nil. simpl. rewrite ?Ascii.eqb_refl.
    reflexivity.
  - intros Hn Ho. rewrite occurs_cons in Ho. rewrite !append_cons. simpl.
    destruct (Ascii.eqb_spec a newline) as [->|_]; [tauto|].
    rewrite IH; [reflexivity | unfold strlen; lia | tauto].
Qed.

Lemma read_line_full (l rest : string) :
  ~ occurs newline l -> read_line (strlen l) (l +:+ rest) = (l, rest).
Proof.
  induction l as [|a l IH]; intros Ho; [reflexivity|].
  rewrite occurs_cons in Ho. rewrite append_cons.
  unfold strlen in *. simpl.
  destruct (Ascii.eqb_spec a newline) as [->|_]; [tauto|].
  rewrite IH; [reflexivity | tauto].
Qed.

Lemma cstr_of_no_nul (s : string) : no_nul s = true -> cstr_of s = s.
Proof.
  induction s as [|a s IH]; [reflexivity|]. simpl.
  destruct (Ascii.eqb a NUL); simpl; [discriminate|].
  intros H. now rewrite IH.
Qed.

Lemma no_nul_append (s t : string) :
  no_nul s = true -> no_nul t = true -> no_nul (s +:+ t) = true.
Proof.
  induction s as [|a s IH]; [now rewrite append_nil|]. rewrite append_cons.
  simpl. destruct (Ascii.eqb a NUL); simpl; [discriminate|]. apply IH.
Qed.

(** The answer, by the text [fgets] stored. *)
Lemma question_buffer (preset : bool) (msg : string) (io : streams)
    (buf : string) :
  fst (fgets 32 (stdin io)) = Some buf ->
  exists t l r,
    strtrim (Some (cstr_of buf)) = Returns (Some t) /\
    cstr_of buf = l +:+ t +:+ r /\
    all_space l = true /\ all_space r = true /\ trimmed t /\
    fst (question preset msg io) =
    Some (if String.eqb t "" then preset else String.eqb (lower t) "yes").
Proof.
  unfold question. destruct (fgets 32 (stdin io)) as [[buf'|] rest];
    [|discriminate].
  cbn [fst]. intros [= ->].
  destruct (strtrim_spec (cstr_of buf)) as (t & l & r & Ht & Hs & Hl & Hr & Htr).
  exists t, l, r. repeat (split; [assumption|]). rewrite Ht.
  pose proof (strtrim_no_nul _ _ (no_nul_cstr_of buf) Ht) as Hn.
  destruct t as [|a t']; [reflexivity|].
  set (t := String a t') in *.
  replace (Nat.eqb (strlen t) 0) with false by reflexivity.
  replace (String.eqb t "") with false by reflexivity.
  destruct (Z.eqb_spec (strcasecmp t "yes") 0) as [Hy|Hy].
  - apply strcasecmp_eq in Hy; [|assumption|reflexivity].
    change (lower "yes") with "yes" in Hy. rewrite Hy. reflexivity.
  - assert (Hne : lower t <> "yes").
    { intros Hne. apply Hy. apply strcasecmp_eq; [assumption|reflexivity|].
      exact Hne. }
    apply String.eqb_neq in Hne. rewrite Hne.
    now destruct (strcasecmp t "no" =? 0)%Z.
Qed.

(** [xbps_yesno] and [xbps_noyes] always answer, and the answer is decided
    by the text [fgets] stored: at most the first 31 bytes of the unread
    input, up to and including the first newline, as far as the first NUL.
    At the end of the input the answer is no, whatever the default. When
    the stored text is white space only, the answer is the default;
    otherwise it is yes exactly when the stored text, without the white
    space at its two ends, is ["yes"] in any letter case. An input line of
    at most 30 characters without a NUL is stored whole, with its newline,
    so that it is the line that decides. *)
Theorem question_verdict (preset : bool) (msg : string) (io : streams) :
  (stdin io = "" -> fst (question preset msg io) = Some false) /\
  (forall buf,
     fst (fgets 32 (stdin io)) = Some buf ->
     exists t l r,
       strtrim (Some (cstr_of buf)) = Returns (Some t) /\
       cstr_of buf = l +:+ t +:+ r /\
       all_space l = true /\ all_space r = true /\ trimmed t /\
       fst (question preset msg io) =
       Some (if String.eqb t "" then preset else String.eqb (lower t) "yes")) /\
  (forall line rest,
     stdin io = line +:+ String newline rest ->
     strlen line <= 30 -> ~ occurs newline line -> no_nul line = true ->
     exists t l r,
       line +:+ String newline "" = l +:+ t +:+ r /\
       all_space l = true /\ all_space r = true /\ trimmed t /\
       fst (question preset msg io) =
       Some (if String.eqb t "" then preset else String.eqb (lower t) "yes")).
Proof.
  split; [|split].
  - intros H. unfold question. rewrite H. reflexivity.
  - apply question_buffer.
  - intros line rest Hin Hlen Hnl Hnul.
    assert (Hbuf : fst (fgets 32 (stdin io)) = Some (line +:+ String newline "")).
    { rewrite Hin. unfold fgets. change (32 - 1) with 31.
      rewrite read_line_short; [|lia|assumption].
      destruct line; reflexivity. }
    destruct (question_buffer preset msg io _ Hbuf)
      as (t & l & r & _ & Hs & Hl & Hr & Ht & Hq).
    rewrite cstr_of_no_nul in Hs by (now apply no_nul_append).
    now exists t, l, r.
Qed.

Lemma question_stdin (preset : bool) (msg : string) (io : streams) :
  stdin (snd (question preset msg io)) = snd (read_line 31 (stdin io)).
Proof.
  unfold question, fgets. change (32 - 1) with 31.
  destruct (read_line 31 (stdin io)) as [[|a l] rest]; [reflexivity|].
  cbv beta iota.
  destruct (strtrim _) as [|[t|]]; try reflexivity.
  repeat match goal with
         | |- context [if ?b then _ else _] => destruct b
         end; reflexivity.
Qed.

(** A prompt takes one line from the input when the line has at most 30
    characters before its newline. From a longer line it takes 31
    characters only, and the rest of the line is left for the next
    prompt. *)
Theorem question_consumes_line
    (preset : bool) (msg : string) (io : streams) (l rest : string) :
  ~ occurs newline l ->
  (strlen l <= 30 -> stdin io = l +:+ String newline rest ->
     stdin (snd (question preset msg io)) = rest) /\
  (strlen l = 31 -> stdin io = l +:+ rest ->
     stdin (snd (question preset msg io)) = rest).
Proof.
  intros Ho. rewrite question_stdin. split.
  - intros Hl ->. rewrite read_line_short; [reflexivity | lia | assumption].
  - intros Hl ->. rewrite <- Hl. now rewrite read_line_full.
Qed.

End PromptFacts.

Section PromptSamples.
Import CStr Location Prompt.

Lemma question_verdict_witness :
  exists t l r,
    "  YeS " +:+ String newline "" = l +:+ t +:+ r /\
    all_space l = true /\ all_space r = true /\ trimmed t /\
    fst (question false "Remove?"
           (mkStreams ("  YeS " +:+ String newline "rest") "")) =
    Some (if String.eqb t "" then false else String.eqb (lower t) "yes").
Proof.
  apply (proj2 (proj2 (question_verdict false "Remove?"
                         (mkStreams ("  YeS " +:+ String newline "rest") "")))
           "  YeS " "rest").
  - reflexivity.
  - simpl. lia.
  - apply strrchr_none; [discriminate | reflexivity].
  - reflexivity.
Defined.

Lemma question_consumes_line_witness :
  stdin (snd (xbps_yesno "Remove?"
                (mkStreams ("no" +:+ String newline "yes") ""))) = "yes" /\
  stdin (snd (xbps_yesno "Remove?"
                (mkStreams ("yes" +:+ replicate 28 " " +:+
                            String newline "") "")))
  = String newline "".
Proof.
  split.
  - apply (proj1 (question_consumes_line true "Remove?"
                    (mkStreams ("no" +:+ String newline "yes") "")
                    "no" "yes" ltac:(apply strrchr_none; [discriminate | reflexivity]))).
    + simpl. lia.
    + reflexivity.
  - apply (proj2 (question_consumes_line true "Remove?"
                    (mkStreams ("yes" +:+ replicate 28 " " +:+
                                String newline "") "")
                    ("yes" +:+ replicate 28 " ") (String newline "")
                    ltac:(apply strrchr_none; [discriminate | reflexivity]))).
    + reflexivity.
    + reflexivity.
Defined.

Example question_samples :
  fst (xbps_yesno "Remove?" (mkStreams "" "")) = Some false /\
  fst (xbps_yesno "Remove?" (mkStreams (String newline "") "")) = Some true /\
  fst (xbps_noyes "Remove?" (mkStreams ("  YeS " +:+ String newline "") ""))
  = Some true /\
  fst (xbps_yesno "Remove?" (mkStreams ("y" +:+ String newline "") ""))
  = Some false /\
  stderr (snd (xbps_noyes "Remove?" (mkStreams "" ""))) = "Remove? [yes/NO] ".
Proof. repeat split. Qed.

(** A long line is judged by its first 31 bytes: 29 blanks before ["yes"]
    leave ["ye"] in the buffer, and 31 blanks before ["no"] leave white
    space only, which gives the default. *)
Example long_answer_samples :
  fst (xbps_yesno "Remove?"
         (mkStreams (replicate 29 " " +:+ "yes" +:+ String newline "") ""))
  = Some false /\
  fst (xbps_yesno "Remove?"
         (mkStreams (replicate 31 " " +:+ "no" +:+ String newline "") ""))
  = Some true.
Proof. vm_compute. split; reflexivity. Qed.

End PromptSamples.
(** ** Histories of configuration calls *)

Section HistoryFacts.
Import CStr Config History.

Variable PATH_MAX : Z.
Variable XBPS_CACHE_PATH : string.
Variable overlapping : string -> Z -> source -> source -> Z * string.

Local Abbreviation fits := (Config.fits PATH_MAX).
Local Abbreviation read_cachedir :=
  (Config.read_cachedir PATH_MAX XBPS_CACHE_PATH overlapping).
Local Abbreviation run := (Config.run PATH_MAX XBPS_CACHE_PATH overlapping).
Local Abbreviation step := (Config.step PATH_MAX XBPS_CACHE_PATH overlapping).
Local Abbreviation set_cachedir :=
  (Config.xbps_set_cachedir PATH_MAX overlapping).
Local Abbreviation get_cachedir :=
  (Config.xbps_get_cachedir PATH_MAX XBPS_CACHE_PATH overlapping).

Lemma step_rootdir (c : call) (st : state) :
  default (Ext "/") (rootdir (step c st)) =
  match c with
  | SetRootdir dir => dir
  | _ => default (Ext "/") (rootdir st)
  end.
Proof.
  destruct c; simpl; try reflexivity.
  - now rewrite (proj1 (get_rootdir_snd st)).
  - destruct (set_cachedir_frame PATH_MAX overlapping st dir)
      as (_ & _ & -> & _).
    reflexivity.
  - apply get_cachedir_frame.
Qed.

Lemma step_flags (c : call) (st : state) :
  flags (step c st) =
  match c with
  | SetFlags f => f
  | _ => flags st
  end.
Proof.
  destruct c; simpl; try reflexivity.
  - apply get_rootdir_snd.
  - apply set_cachedir_frame.
  - apply get_cachedir_frame.
Qed.

Lemma run_rootdir (cs : list call) (st : state) :
  default (Ext "/") (rootdir (run cs st)) =
  default (default (Ext "/") (rootdir st)) (last_rootdir cs).
Proof.
  revert st. induction cs as [|c cs IH]; intros st; [reflexivity|].
  simpl. rewrite IH, step_rootdir.
  destruct (last_rootdir cs); [reflexivity|]. now destruct c.
Qed.

Lemma run_flags (cs : list call) (st : state) :
  flags (run cs st) = default (flags st) (last_flags cs).
Proof.
  revert st. induction cs as [|c cs IH]; intros st; [reflexivity|].
  simpl. rewrite IH, step_flags.
  destruct (last_flags cs); [reflexivity|]. now destruct c.
Qed.

(** After any sequence of calls, reading the root directory returns the
    pointer given to the last [xbps_set_rootdir], or a pointer to ["/"]
    when there was none: reads, the defaulting and the cache-directory
    calls never replace a pointer that was set. The text is not copied:
    when the pointer is to a string outside the static buffers of the cache
    directory, the read yields that string; when it is a pointer
    [xbps_get_cachedir] returned, the read yields what the buffer holds by
    then. *)
Theorem rootdir_last_write_wins (cs : list call) :
  let st := run cs initial in
  fst (xbps_get_rootdir st) = default (Ext "/") (last_rootdir cs) /\
  (forall d,
     default (Ext "/") (last_rootdir cs) = Ext d ->
     text_of (snd (xbps_get_rootdir st)) (fst (xbps_get_rootdir st)) = d) /\
  (default (Ext "/") (last_rootdir cs) = AtSetRes ->
     text_of (snd (xbps_get_rootdir st)) (fst (xbps_get_rootdir st))
     = set_res st) /\
  (default (Ext "/") (last_rootdir cs) = AtGetRes ->
     text_of (snd (xbps_get_rootdir st)) (fst (xbps_get_rootdir st))
     = get_res st).
Proof.
  cbv zeta.
  assert (H : fst (xbps_get_rootdir (run cs initial))
              = default (Ext "/") (last_rootdir cs)).
  { rewrite get_rootdir_fst. apply run_rootdir. }
  rewrite get_rootdir_text, H.
  split; [reflexivity|].
  split; [|split]; [intros d -> | intros -> | intros ->]; reflexivity.
Qed.

(** After any sequence of calls, [xbps_get_flags] returns the argument of
    the last [xbps_set_flags], or 0 when there was none: the root and cache
    directory calls leave the flags alone. *)
Theorem flags_last_write_wins (cs : list call) :
  xbps_get_flags (run cs initial) = default 0%Z (last_flags cs).
Proof. unfold xbps_get_flags. apply run_flags. Qed.

Local Abbreviation resolved := (History.resolved XBPS_CACHE_PATH).
Local Abbreviation buffers_bounded := (History.buffers_bounded PATH_MAX).

Lemma read_resolved (c : string) (st : state) :
  resolved c st -> read_cachedir st = Some c.
Proof.
  intros [Hn Hc]. unfold Config.read_cachedir.
  now rewrite get_cachedir_set.
Qed.

Lemma get_cachedir_resolves (c : string) (st : state) :
  read_cachedir st = Some c -> resolved c (snd (get_cachedir st)).
Proof.
  unfold Config.read_cachedir, History.resolved.
  destruct (get_cachedir_frame PATH_MAX XBPS_CACHE_PATH overlapping st)
    as (_ & _ & _ & Hp).
  destruct (get_cachedir st) as [p st']. simpl in *. rewrite Hp.
  intros H. split; [|assumption].
  intros ->. discriminate H.
Qed.

Lemma step_resolved (c : string) (k : call) (st : state) :
  sets_cachedir k = false -> resolved c st -> resolved c (step k st).
Proof.
  intros Hk [Hn Hc]. destruct k; simpl in *; try discriminate.
  - split; assumption.
  - destruct (get_rootdir_snd st) as (_ & Hcd & _ & Hs & Hg).
    unfold History.resolved. rewrite Hcd. split; [assumption|].
    destruct (cachedir st); simpl in *; congruence.
  - rewrite get_cachedir_set by assumption. now split.
  - split; assumption.
Qed.

(** Once the cache directory is resolved, by a read that succeeded, it
    stays what it is: as long as [xbps_set_cachedir] is not called, every
    later read returns the same text, also after [xbps_set_rootdir] moved
    the root directory. *)
Theorem cachedir_is_sticky (st : state) (c : string) (cs : list call) :
  read_cachedir st = Some c ->
  forallb (fun k => negb (sets_cachedir k)) cs = true ->
  read_cachedir (run cs (snd (get_cachedir st))) = Some c.
Proof.
  intros Hc Hcs. apply read_resolved.
  apply get_cachedir_resolves in Hc. revert Hc Hcs.
  generalize (snd (get_cachedir st)). clear st.
  induction cs as [|k cs IH]; intros st Hst; simpl; [auto|].
  intros [Hk Hcs]%andb_true_iff. apply IH; [|assumption].
  apply step_resolved; [|assumption]. now destruct (sets_cachedir k).
Qed.

Lemma step_bounded (k : call) (st : state) :
  buffers_bounded st -> buffers_bounded (step k st).
Proof.
  intros [Hs Hg]. destruct k; simpl.
  - split; assumption.
  - destruct (get_rootdir_snd st) as (_ & Hcd & _ & Hsr & Hgr).
    unfold History.buffers_bounded. rewrite Hcd, Hsr, Hgr. now split.
  - destruct (set_cachedir_frame PATH_MAX overlapping st dir)
      as (_ & _ & _ & Hc & Hb).
    split; [assumption|]. intros H. destruct Hc; congruence.
  - destruct (cachedir st) eqn:E.
    + pose proof (get_cachedir_bounded PATH_MAX XBPS_CACHE_PATH overlapping
                    st E) as Hb.
      destruct (get_cachedir_frame PATH_MAX XBPS_CACHE_PATH overlapping st)
        as (_ & Hsr & _ & Hp).
      split.
      * intros H. exfalso. revert H. rewrite Hp.
        unfold xbps_get_cachedir. rewrite E.
        destruct (xbps_get_rootdir st) as [root st1].
        destruct (snprintf_static _ _ _ _ _) as [r res].
        destruct (_ || _); discriminate.
      * intros H. apply Hb. congruence.
    + rewrite get_cachedir_set by congruence. simpl.
      split; rewrite E; assumption.
    + rewrite get_cachedir_set by congruence. simpl.
      split; rewrite E; assumption.
    + rewrite get_cachedir_set by congruence. simpl.
      split; rewrite E; assumption.
  - split; assumption.
Qed.

Lemma run_bounded (cs : list call) (st : state) :
  buffers_bounded st -> buffers_bounded (run cs st).
Proof.
  revert st. induction cs as [|k cs IH]; intros st Hst; simpl; [auto|].
  apply IH. now apply step_bounded.
Qed.

(** Whatever calls were made since program start, a read of the cache
    directory that succeeds returns the literal [XBPS_CACHE_PATH] or a text
    shorter than [PATH_MAX - 1] characters. *)
Theorem cachedir_text_is_bounded (cs : list call) (c : string) :
  read_cachedir (run cs initial) = Some c ->
  c = XBPS_CACHE_PATH \/ (Z.of_nat (strlen c) < PATH_MAX - 1)%Z.
Proof.
  assert (Hb : buffers_bounded (run cs initial)).
  { apply run_bounded. split; discriminate. }
  intros Hc. apply get_cachedir_resolves in Hc.
  pose proof (step_bounded GetCachedir _ Hb) as [Hs Hg]. simpl in Hs, Hg.
  destruct Hc as [Hn Hc].
  destruct (cachedir (snd (get_cachedir (run cs initial)))); simpl in Hc.
  - contradiction.
  - left. congruence.
  - right. injection Hc as <-. now apply Hs.
  - right. injection Hc as <-. now apply Hg.
Qed.

(** What [xbps_set_cachedir] leaves in its buffer when both texts lie
    outside it and [snprintf] does not fail. *)
Lemma set_cachedir_text (st : state) (dir : strptr) :
  rootdir st <> Some AtSetRes -> dir <> AtSetRes -> (1 < PATH_MAX)%Z ->
  let out :=
    text_of st (default (Ext "/") (rootdir st)) +:+ "/" +:+ text_of st dir in
  (Z.of_nat (strlen out) <= INT_MAX)%Z ->
  set_res (set_cachedir dir st) = take (Z.to_nat (PATH_MAX - 2)) out.
Proof.
  intros Hroot Hdir Hp. cbv zeta. intros Hint. unfold xbps_set_cachedir.
  pose proof (get_rootdir_fst st) as Hf.
  pose proof (get_rootdir_text st) as Ht.
  destruct (xbps_get_rootdir st) as [root st1]. simpl in Hf, Ht.
  assert (Hr : root <> AtSetRes).
  { rewrite Hf. destruct (rootdir st) as [p|]; simpl; congruence. }
  rewrite (source_set_other st1 root Hr), (source_set_other st1 dir Hdir).
  rewrite !Ht, Hf. unfold snprintf_static, snprintf_path.
  destruct (Z.ltb_spec INT_MAX
              (Z.of_nat (strlen (text_of st (default (Ext "/") (rootdir st))
                                 +:+ "/" +:+ text_of st dir))))
    as [|_]; [lia|].
  destruct (Z.leb_spec (PATH_MAX - 1) 0) as [|_]; [lia|].
  replace (PATH_MAX - 1 - 1)%Z with (PATH_MAX - 2)%Z by lia.
  destruct (_ || _); reflexivity.
Qed.

(** A pointer returned by [xbps_get_cachedir] after [xbps_set_cachedir]
    points into the static buffer of [xbps_set_cachedir]: the next
    [xbps_set_cachedir] overwrites what it reads, with the new text cut to
    [PATH_MAX - 2] characters, even when the new text is too long and the
    cache directory itself falls back to the literal. This is for
    directories and a root directory that lie outside that buffer. *)
Theorem set_cachedir_overwrites_returned_text (st : state) (d1 d2 : strptr) :
  rootdir st <> Some AtSetRes -> d1 <> AtSetRes -> d2 <> AtSetRes ->
  let root := text_of st (default (Ext "/") (rootdir st)) in
  let out1 := root +:+ "/" +:+ text_of st d1 in
  let out2 := root +:+ "/" +:+ text_of st d2 in
  fits out1 = true -> (Z.of_nat (strlen out2) <= INT_MAX)%Z ->
  let got :=
    xbps_get_cachedir PATH_MAX XBPS_CACHE_PATH overlapping
      (xbps_set_cachedir PATH_MAX overlapping d1 st) in
  as_strptr XBPS_CACHE_PATH (fst got) = Some AtSetRes /\
  string_at XBPS_CACHE_PATH (snd got) (fst got) = Some out1 /\
  string_at XBPS_CACHE_PATH
    (xbps_set_cachedir PATH_MAX overlapping d2 (snd got)) (fst got)
  = Some (take (Z.to_nat (PATH_MAX - 2)) out2).
Proof.
  intros Hroot Hd1 Hd2. cbv zeta. intros Hfit Hint.
  destruct (set_cachedir_fields PATH_MAX overlapping st d1 Hroot Hd1)
    as (Hc & Hres).
  cbv zeta in Hc, Hres.
  destruct (set_cachedir_frame PATH_MAX overlapping st d1)
    as (_ & Hg & Hr1 & _).
  rewrite get_cachedir_set
    by (rewrite Hc; now destruct (Config.fits PATH_MAX _)).
  rewrite Hfit in Hc. simpl fst. simpl snd. rewrite Hc.
  simpl as_strptr. simpl string_at.
  split; [reflexivity|]. split; [now rewrite (Hres Hfit)|].
  pose proof (fits_bound PATH_MAX _ Hfit) as Hb.
  assert (Ht : forall p, p <> AtSetRes ->
            text_of (set_cachedir d1 st) p = text_of st p).
  { intros [s| |] Hp; simpl; congruence. }
  assert (Hroot1 : rootdir (set_cachedir d1 st) <> Some AtSetRes).
  { rewrite Hr1. destruct (rootdir st) as [p|]; simpl; congruence. }
  rewrite (set_cachedir_text (set_cachedir d1 st) d2 Hroot1 Hd2).
  - rewrite Hr1. simpl default. rewrite !Ht; [reflexivity | assumption |].
    destruct (rootdir st) as [p|]; simpl; congruence.
  - lia.
  - rewrite Hr1. simpl default. rewrite !Ht; [assumption | assumption |].
    destruct (rootdir st) as [p|]; simpl; congruence.
Qed.

End HistoryFacts.

Section HistorySamples.
Import CStr Config History.

(** The root directory is the caller's pointer, not a copy: with the
    pointer [xbps_get_cachedir] returned as root directory, a later
    [xbps_set_cachedir] changes the text [xbps_get_rootdir] yields. Under an
    [snprintf] that copies from front to back, ["//a"] becomes ["/b"]. *)
Example rootdir_is_not_copied :
  text_of
    (Config.run Samples.PATH_MAX Samples.XBPS_CACHE_PATH
       Samples.forward_snprintf
       [SetCachedir (Ext "a"); GetCachedir; SetRootdir AtSetRes] initial)
    AtSetRes = "//a" /\
  text_of
    (Config.run Samples.PATH_MAX Samples.XBPS_CACHE_PATH
       Samples.forward_snprintf
       [SetCachedir (Ext "a"); GetCachedir; SetRootdir AtSetRes;
        SetCachedir (Ext "b")] initial)
    (fst (xbps_get_rootdir
            (Config.run Samples.PATH_MAX Samples.XBPS_CACHE_PATH
               Samples.forward_snprintf
               [SetCachedir (Ext "a"); GetCachedir; SetRootdir AtSetRes;
                SetCachedir (Ext "b")] initial))) = "/b".
Proof. vm_compute. split; reflexivity. Qed.

Lemma cachedir_is_sticky_witness :
  Config.read_cachedir Samples.PATH_MAX Samples.XBPS_CACHE_PATH
    Samples.forward_snprintf
    (Config.run Samples.PATH_MAX Samples.XBPS_CACHE_PATH
       Samples.forward_snprintf
       [SetRootdir (Ext "/mnt"); GetCachedir]
       (snd (xbps_get_cachedir Samples.PATH_MAX Samples.XBPS_CACHE_PATH
               Samples.forward_snprintf initial)))
  = Some "//var/cache/xbps".
Proof.
  apply (cachedir_is_sticky Samples.PATH_MAX Samples.XBPS_CACHE_PATH
           Samples.forward_snprintf initial "//var/cache/xbps"
           [SetRootdir (Ext "/mnt"); GetCachedir]);
    reflexivity.
Defined.

Lemma cachedir_text_is_bounded_witness :
  "/mnt/cache" = Samples.XBPS_CACHE_PATH \/
  (Z.of_nat (strlen "/mnt/cache") < Samples.PATH_MAX - 1)%Z.
Proof.
  apply (cachedir_text_is_bounded Samples.PATH_MAX Samples.XBPS_CACHE_PATH
           Samples.forward_snprintf
           [SetRootdir (Ext "/mnt"); SetCachedir (Ext "cache")] "/mnt/cache").
  reflexivity.
Defined.

Lemma set_cachedir_overwrites_returned_text_witness :
  as_strptr Samples.XBPS_CACHE_PATH
    (fst (xbps_get_cachedir Samples.PATH_MAX Samples.XBPS_CACHE_PATH
            Samples.forward_snprintf
            (xbps_set_cachedir Samples.PATH_MAX Samples.forward_snprintf
               (Ext "a") initial))) = Some AtSetRes /\
  Config.string_at Samples.XBPS_CACHE_PATH
    (snd (xbps_get_cachedir Samples.PATH_MAX Samples.XBPS_CACHE_PATH
            Samples.forward_snprintf
            (xbps_set_cachedir Samples.PATH_MAX Samples.forward_snprintf
               (Ext "a") initial)))
    (fst (xbps_get_cachedir Samples.PATH_MAX Samples.XBPS_CACHE_PATH
            Samples.forward_snprintf
            (xbps_set_cachedir Samples.PATH_MAX Samples.forward_snprintf
               (Ext "a") initial))) = Some "//a" /\
  Config.string_at Samples.XBPS_CACHE_PATH
    (xbps_set_cachedir Samples.PATH_MAX Samples.forward_snprintf (Ext "b")
       (snd (xbps_get_cachedir Samples.PATH_MAX Samples.XBPS_CACHE_PATH
               Samples.forward_snprintf
               (xbps_set_cachedir Samples.PATH_MAX Samples.forward_snprintf
                  (Ext "a") initial))))
    (fst (xbps_get_cachedir Samples.PATH_MAX Samples.XBPS_CACHE_PATH
            Samples.forward_snprintf
            (xbps_set_cachedir Samples.PATH_MAX Samples.forward_snprintf
               (Ext "a") initial))) = Some "//b".
Proof.
  apply (set_cachedir_overwrites_returned_text Samples.PATH_MAX
           Samples.XBPS_CACHE_PATH Samples.forward_snprintf initial
           (Ext "a") (Ext "b")).
  - discriminate.
  - discriminate.
  - discriminate.
  - reflexivity.
  - vm_compute. discriminate.
Defined.

End HistorySamples.

(** ** More on the installed-package check *)

Section InstalledMore.
Import CStr Location.

Variable malloc : nat -> option string.
Variable find : string -> bool -> lookup.
Variable state_of : gmap string prop_object -> Z -> Z * Z.
Variable pattern_match : string -> string -> Z.
Variable XBPS_PKG_STATE_INSTALLED ENOENT : Z.

(** What a returned pattern name says about the pattern. *)
Lemma pattern_name_some (pkg n : string) :
  Ident.xbps_get_pkgpattern_name malloc pkg = Some n ->
  exists c suf, pkg = n +:+ String c suf /\ in_set c "><=" = true /\
                ~ occurs_any "><=" n.
Proof.
  unfold Ident.xbps_get_pkgpattern_name.
  destruct (strpbrk pkg "><=") as [t|] eqn:E; [|discriminate].
  destruct (strpbrk_some _ _ _ E) as (pre & c & suf & -> & -> & Hc & Hpre).
  rewrite strlen_append.
  replace (strlen pre + strlen (String c suf) - strlen (String c suf) + 1)
    with (S (strlen pre)) by lia.
  destruct (malloc _); [|discriminate]. simpl. rewrite take_append.
  intros [= <-]. eauto.
Qed.

(** For a record that is fully installed and carries its ["pkgver"], the
    check returns what the version comparator says of that version and the
    whole pattern, as the caller gave it. *)
Theorem installed_check_delegates
    (pkg pre suf v : string) (c : ascii) (d : gmap string prop_object) :
  (forall n, is_Some (malloc n)) ->
  pkg = pre +:+ String c suf -> in_set c "><=" = true ->
  ~ occurs_any "><=" pre ->
  find pre false = Found d ->
  state_of d 0%Z = (0%Z, XBPS_PKG_STATE_INSTALLED) ->
  d !! "pkgver" = Some (PString v) ->
  xbps_check_is_installed_pkg malloc find state_of pattern_match
    XBPS_PKG_STATE_INSTALLED ENOENT pkg = pattern_match v pkg.
Proof.
  intros Hm -> Hc Hpre Hfind Hstate Hv.
  unfold xbps_check_is_installed_pkg, Ident.xbps_get_pkgpattern_name.
  rewrite (strpbrk_first pre suf "><=" c Hc Hpre).
  rewrite copy_prefix by assumption. rewrite Hfind, Hstate.
  unfold xbps_get_pkgver_from_dict, prop_dictionary_get_cstring_nocopy.
  rewrite Hv, !Z.eqb_refl. reflexivity.
Qed.

(** Failures of the store are reported as [-1]: a lookup that fails with
    anything but [ENOENT], a state that cannot be read, and a fully
    installed record that has no ["pkgver"] string. *)
Theorem installed_check_store_errors
    (pkg pre suf : string) (c : ascii) :
  (forall n, is_Some (malloc n)) ->
  pkg = pre +:+ String c suf -> in_set c "><=" = true ->
  ~ occurs_any "><=" pre ->
  (forall e, find pre false = Missing e -> e <> ENOENT ->
     xbps_check_is_installed_pkg malloc find state_of pattern_match
       XBPS_PKG_STATE_INSTALLED ENOENT pkg = (-1)%Z) /\
  (forall d, find pre false = Found d -> fst (state_of d 0%Z) <> 0%Z ->
     xbps_check_is_installed_pkg malloc find state_of pattern_match
       XBPS_PKG_STATE_INSTALLED ENOENT pkg = (-1)%Z) /\
  (forall d, find pre false = Found d ->
     state_of d 0%Z = (0%Z, XBPS_PKG_STATE_INSTALLED) ->
     (forall v, d !! "pkgver" <> Some (PString v)) ->
     xbps_check_is_installed_pkg malloc find state_of pattern_match
       XBPS_PKG_STATE_INSTALLED ENOENT pkg = (-1)%Z).
Proof.
  intros Hm -> Hc Hpre.
  unfold xbps_check_is_installed_pkg, Ident.xbps_get_pkgpattern_name.
  rewrite (strpbrk_first pre suf "><=" c Hc Hpre).
  rewrite copy_prefix by assumption. repeat split.
  - intros e -> He. now destruct (Z.eqb_spec e ENOENT).
  - intros d -> Hrv. destruct (state_of d 0%Z) as [rv state]. simpl in Hrv.
    now destruct (Z.eqb_spec rv 0).
  - intros d -> -> Hv.
    unfold xbps_get_pkgver_from_dict, prop_dictionary_get_cstring_nocopy.
    rewrite !Z.eqb_refl.
    destruct (d !! "pkgver") as [[v| | |]|] eqn:E; try reflexivity.
    now destruct (Hv v).
Qed.

(** Whenever the pattern check returns anything but 0 and [-1], the store
    has a record under the name part of the pattern: the name-only check
    [xbps_check_is_installed_pkgname] holds of it. *)
Theorem installed_pattern_implies_installed_name (pkg : string) :
  xbps_check_is_installed_pkg malloc find state_of pattern_match
    XBPS_PKG_STATE_INSTALLED ENOENT pkg <> 0%Z ->
  xbps_check_is_installed_pkg malloc find state_of pattern_match
    XBPS_PKG_STATE_INSTALLED ENOENT pkg <> (-1)%Z ->
  exists pre c suf,
    pkg = pre +:+ String c suf /\ in_set c "><=" = true /\
    ~ occurs_any "><=" pre /\
    xbps_check_is_installed_pkgname find pre = true.
Proof.
  unfold xbps_check_is_installed_pkg, xbps_check_is_installed_pkgname.
  destruct (Ident.xbps_get_pkgpattern_name malloc pkg) as [n|] eqn:E;
    [|congruence].
  destruct (pattern_name_some _ _ E) as (c & suf & Hpkg & Hc & Hn).
  intros H0 H1. exists n, c, suf. repeat split; try assumption.
  destruct (find n false); [reflexivity|].
  destruct (_ =? _)%Z; congruence.
Qed.

End InstalledMore.

Section InstalledMoreSamples.
Import CStr Location.

Lemma installed_check_delegates_witness :
  xbps_check_is_installed_pkg Samples.sample_malloc Samples.sample_find
    Samples.sample_state MoreSamples.exact_match
    Samples.XBPS_PKG_STATE_INSTALLED Samples.ENOENT "foo>=1.0" = 1%Z.
Proof.
  apply (installed_check_delegates Samples.sample_malloc Samples.sample_find
           Samples.sample_state MoreSamples.exact_match
           Samples.XBPS_PKG_STATE_INSTALLED Samples.ENOENT
           "foo>=1.0" "foo" "=1.0" "foo-1.0" ">"%char Samples.foo_record).
  - intros n. exists "". reflexivity.
  - reflexivity.
  - reflexivity.
  - apply strpbrk_none. reflexivity.
  - reflexivity.
  - reflexivity.
  - reflexivity.
Defined.

Lemma installed_check_store_errors_witness :
  xbps_check_is_installed_pkg Samples.sample_malloc MoreSamples.no_pkgver_find
    Samples.sample_state Samples.sample_match
    Samples.XBPS_PKG_STATE_INSTALLED Samples.ENOENT "foo>=1.0" = (-1)%Z.
Proof.
  destruct (installed_check_store_errors Samples.sample_malloc
              MoreSamples.no_pkgver_find Samples.sample_state
              Samples.sample_match Samples.XBPS_PKG_STATE_INSTALLED
              Samples.ENOENT "foo>=1.0" "foo" "=1.0" ">"%char)
    as (_ & _ & H).
  - intros n. exists "". reflexivity.
  - reflexivity.
  - reflexivity.
  - apply strpbrk_none. reflexivity.
  - apply (H MoreSamples.no_pkgver_record); [reflexivity | reflexivity |].
    intros v. vm_compute. discriminate.
Defined.

Lemma installed_pattern_implies_installed_name_witness :
  exists pre c suf,
    "foo>=1.0" = pre +:+ String c suf /\ in_set c "><=" = true /\
    ~ occurs_any "><=" pre /\
    xbps_check_is_installed_pkgname Samples.sample_find pre = true.
Proof.
  apply (installed_pattern_implies_installed_name Samples.sample_malloc
           Samples.sample_find Samples.sample_state Samples.sample_match
           Samples.XBPS_PKG_STATE_INSTALLED Samples.ENOENT "foo>=1.0").
  - vm_compute. discriminate.
  - vm_compute. discriminate.
Defined.

End InstalledMoreSamples.

(** ** More on the identifier parser *)

Section IdentMore.
Import CStr Ident.

Lemma strrchr_cons (a : ascii) (r : string) (c : ascii) :
  strrchr (String a r) c =
  match strrchr r c with
  | Some t => Some t
  | None => if Ascii.eqb a c then Some (String a r) else None
  end.
Proof. reflexivity. Qed.

(** [strrchr] on a concatenation: the last occurrence is in the second
    part when there is one, and in the first part otherwise. *)
Lemma strrchr_append (a b : string) (c : ascii) :
  c <> NUL ->
  strrchr (a +:+ b) c =
  match strrchr b c with
  | Some t => Some t
  | None => option_map (fun t => t +:+ b) (strrchr a c)
  end.
Proof.
  intros Hc. induction a as [|x a IH].
  - rewrite append_nil. simpl. destruct (Ascii.eqb_spec c NUL); [tauto|].
    now destruct (strrchr b c).
  - rewrite append_cons. simpl. rewrite IH.
    destruct (strrchr b c) as [t|]; [reflexivity|].
    destruct (strrchr a c) as [t|]; simpl; [reflexivity|].
    now destruct (Ascii.eqb x c).
Qed.

(** Joining a name and a version with ['-'] and splitting again gives the
    two parts back, whatever dashes the name has, as long as the version
    has none and the allocation succeeds; the same holds for a name joined
    with a constraint that starts with ['>'], ['<'] or ['='], as long as
    the name has none of them. *)
Theorem join_then_split
    (malloc : nat -> option string) (n v : string) (c : ascii) :
  (forall k, is_Some (malloc k)) ->
  (~ occurs "-" v ->
     xbps_get_pkg_name malloc (n +:+ String "-" v) = Some n /\
     xbps_get_pkg_version (n +:+ String "-" v) = Some v) /\
  (in_set c "><=" = true -> ~ occurs_any "><=" n ->
     xbps_get_pkgpattern_name malloc (n +:+ String c v) = Some n /\
     xbps_get_pkgpattern_version (n +:+ String c v) = Some (String c v)).
Proof.
  intros Hm. split.
  - intros Hv. unfold xbps_get_pkg_name, xbps_get_pkg_version.
    rewrite strrchr_last by (assumption || discriminate).
    now rewrite copy_prefix.
  - intros Hc Hn. unfold xbps_get_pkgpattern_name, xbps_get_pkgpattern_version.
    rewrite (strpbrk_first n v "><=" c Hc Hn).
    now rewrite copy_prefix.
Qed.

Lemma join_then_split_witness :
  (xbps_get_pkg_name Samples.sample_malloc ("lib-foo" +:+ String "-" "1.0_2")
   = Some "lib-foo" /\
   xbps_get_pkg_version ("lib-foo" +:+ String "-" "1.0_2") = Some "1.0_2") /\
  (xbps_get_pkgpattern_name Samples.sample_malloc
     ("lib-foo" +:+ String "<" "2.0") = Some "lib-foo" /\
   xbps_get_pkgpattern_version ("lib-foo" +:+ String "<" "2.0")
   = Some "<2.0").
Proof.
  assert (Hm : forall k, is_Some (Samples.sample_malloc k))
    by (intros k; exists ""; reflexivity).
  split.
  - apply (proj1 (join_then_split Samples.sample_malloc "lib-foo" "1.0_2"
                    "-"%char Hm)).
    apply strrchr_none; [discriminate | reflexivity].
  - apply (proj2 (join_then_split Samples.sample_malloc "lib-foo" "2.0"
                    "<"%char Hm)).
    + reflexivity.
    + apply strpbrk_none. reflexivity.
Defined.

(** The revision and the epoch are looked for in the whole identifier, not
    in its version part. When the version part has the delimiter, the
    accessor gives the same as on the version alone; when it has none, what
    the accessor finds in the name comes back with ['-'] and the whole
    version after it. *)
Theorem revision_and_epoch_span_the_identifier (n v : string) :
  (xbps_get_pkg_revision (n +:+ String "-" v) =
   match xbps_get_pkg_revision v with
   | Some r => Some r
   | None => option_map (fun r => r +:+ String "-" v) (xbps_get_pkg_revision n)
   end) /\
  (xbps_get_pkg_epoch (n +:+ String "-" v) =
   match xbps_get_pkg_epoch v with
   | Some e => Some e
   | None => option_map (fun e => e +:+ String "-" v) (xbps_get_pkg_epoch n)
   end).
Proof.
  assert (H : forall c, c <> NUL -> c <> "-"%char ->
            match strrchr (n +:+ String "-" v) c with
            | None => None
            | Some tmp => Some (next tmp)
            end =
            match match strrchr v c with
                  | None => None
                  | Some tmp => Some (next tmp)
                  end with
            | Some r => Some r
            | None => option_map (fun r => r +:+ String "-" v)
                        match strrchr n c with
                        | None => None
                        | Some tmp => Some (next tmp)
                        end
            end).
  { intros c Hc Hd. rewrite strrchr_append by assumption.
    rewrite (strrchr_cons "-" v c).
    destruct (strrchr v c) as [t|]; [reflexivity|].
    destruct (Ascii.eqb_spec "-"%char c) as [E|_]; [congruence|].
    destruct (strrchr n c) as [t|] eqn:E; [|reflexivity]. simpl.
    destruct (strrchr_some _ _ _ Hc E) as (pre & suf & _ & -> & _).
    now rewrite append_cons. }
  split; apply H; discriminate.
Qed.

Example revision_samples :
  xbps_get_pkg_revision "foo-1.0_2" = Some "2" /\
  xbps_get_pkg_revision "foo_bar-1.0" = Some "bar-1.0" /\
  xbps_get_pkg_epoch "foo-1.0_2" = None.
Proof. repeat split. Qed.

End IdentMore.

(** ** More on the digest engine *)

Section MappingFacts.
Import CStr Digest Mapping.

(** Clearing the low [k] bits of a [size_t] rounds it down to a multiple
    of [2^k]. *)
Lemma land_lnot_mask (a k : Z) :
  (0 <= k)%Z -> (0 <= a < SIZE_MOD)%Z ->
  Z.land a (to_size_t (Z.lnot (2 ^ k - 1))) = (a / 2 ^ k * 2 ^ k)%Z.
Proof.
  intros Hk Ha. unfold to_size_t, SIZE_MOD in *.
  rewrite <- (Z.land_ones _ 64) by lia.
  rewrite (Z.land_comm (Z.lnot _)), Z.land_assoc.
  rewrite (Z.land_ones a 64) by lia. rewrite (Z.mod_small a) by lia.
  replace (2 ^ k - 1)%Z with (Z.ones k) by (rewrite Z.ones_equiv; lia).
  rewrite <- Z.ldiff_land, Z.ldiff_ones_r by lia.
  now rewrite Z.shiftr_div_pow2, Z.shiftl_mul_pow2 by lia.
Qed.

(** The length the digest passes to [mmap], for a page of [2^k] bytes. *)
Lemma map_length_ok (k st_size : Z) :
  (0 <= k <= 62)%Z -> (0 <= st_size <= SSIZE_MAX - 1)%Z ->
  let pgsize := to_size_t (2 ^ k) in
  let pgmask := to_size_t (pgsize - 1) in
  let mapsize :=
    Z.land (to_size_t (to_size_t st_size + pgmask))
           (to_size_t (Z.lnot pgmask)) in
  (mapsize <? to_size_t st_size)%Z = false /\
  mapping_ok (2 ^ k) st_size
    (if (Z.land (to_size_t st_size) pgmask =? 0)%Z
     then to_size_t (mapsize + pgsize) else mapsize) = true.
Proof.
  intros Hk Hsz. cbv zeta. unfold SSIZE_MAX in Hsz.
  assert (HP : (0 < 2 ^ k <= 2 ^ 62)%Z).
  { split; [apply Z.pow_pos_nonneg; lia|].
    apply Z.pow_le_mono_r; lia. }
  set (P := (2 ^ k)%Z) in *.
  assert (H64 : SIZE_MOD = (2 ^ 64)%Z) by reflexivity.
  assert (H62 : (2 ^ 62 = 4611686018427387904)%Z) by reflexivity.
  assert (H63 : (2 ^ 63 = 9223372036854775808)%Z) by reflexivity.
  assert (H64' : (2 ^ 64 = 18446744073709551616)%Z) by reflexivity.
  assert (HtP : to_size_t P = P) by (apply Z.mod_small; lia).
  assert (HtP1 : to_size_t (P - 1) = (P - 1)%Z) by (apply Z.mod_small; lia).
  assert (Hts : to_size_t st_size = st_size) by (apply Z.mod_small; lia).
  assert (Hta : to_size_t (st_size + (P - 1)) = (st_size + (P - 1))%Z)
    by (apply Z.mod_small; lia).
  rewrite HtP, HtP1, Hts, Hta.
  assert (Hland : Z.land st_size (P - 1) = (st_size mod P)%Z).
  { subst P.
    replace (2 ^ k - 1)%Z with (Z.ones k) by (rewrite Z.ones_equiv; lia).
    apply Z.land_ones. lia. }
  assert (Hmap : Z.land (st_size + (P - 1)) (to_size_t (Z.lnot (P - 1)))
                 = ((st_size + (P - 1)) / P * P)%Z).
  { subst P. apply land_lnot_mask; lia. }
  rewrite Hland, Hmap.
  pose proof (Z.div_mod st_size P ltac:(lia)) as Hdm.
  pose proof (Z.mod_pos_bound st_size P ltac:(lia)) as Hmb.
  set (a := (st_size / P)%Z) in *. set (b := (st_size mod P)%Z) in *.
  unfold mapping_ok.
  destruct (Z.eqb_spec b 0) as [Hb|Hb].
  - assert (Hq : ((st_size + (P - 1)) / P = a)%Z).
    { symmetry. apply (Z.div_unique _ _ a (P - 1)); lia. }
    rewrite Hq.
    assert (Hm : (a * P = st_size)%Z) by lia. rewrite Hm.
    assert (Ht : to_size_t (st_size + P) = (st_size + P)%Z)
      by (apply Z.mod_small; lia).
    rewrite Ht. split; [lia|].
    replace (st_size + P)%Z with ((a + 1) * P)%Z by lia.
    rewrite Z.mod_mul by lia. lia.
  - assert (Hq : ((st_size + (P - 1)) / P = a + 1)%Z).
    { symmetry. apply (Z.div_unique _ _ (a + 1) (b - 1)); lia. }
    rewrite Hq. split; [lia|].
    rewrite Z.mod_mul by lia. lia.
Qed.

Section WithSystem.

Variable k : Z.
Variable sys_open : string -> sys nat.
Variable sys_fstat : nat -> sys Z.
Variable sys_mmap : nat -> Z -> sys (list byte).
Variable sys_munmap : list byte -> Z -> sys unit.
Variable SHA256 : list byte -> Z -> option (list byte).
Variable malloc : nat -> option string.
Variable ENOMEM : Z.

(** With pages of [2^k] bytes and file sizes that are not negative,
    [xbps_get_file_hash] only ever asks [mmap] for a whole number of pages
    that is larger than the file, by one page at most: behind a check that
    refuses any other length it computes the same. The byte after the
    content is therefore always mapped. *)
Theorem get_file_hash_maps_whole_pages (file : string) (errno : Z) :
  (0 <= k <= 62)%Z ->
  (forall fd st_size, sys_fstat fd = Done st_size -> (0 <= st_size)%Z) ->
  xbps_get_file_hash (2 ^ k) sys_open sys_fstat
    (checked_mmap (2 ^ k) sys_fstat sys_mmap) sys_munmap SHA256 malloc ENOMEM file errno
  = xbps_get_file_hash (2 ^ k) sys_open sys_fstat sys_mmap sys_munmap SHA256 malloc
      ENOMEM file errno.
Proof.
  intros Hk Hpos. unfold xbps_get_file_hash, checked_mmap.
  destruct (sys_open file) as [fd|]; [|reflexivity].
  destruct (sys_fstat fd) as [st_size|] eqn:E; [|reflexivity].
  destruct (Z.gtb_spec st_size (SSIZE_MAX - 1)) as [|Hle]; [reflexivity|].
  assert (Hsz : (0 <= st_size <= SSIZE_MAX - 1)%Z).
  { split; [apply (Hpos fd st_size E) | lia]. }
  pose proof (map_length_ok k st_size Hk Hsz) as [Hg Hok].
  cbv zeta in Hg, Hok. rewrite Hg, Hok. reflexivity.
Qed.

End WithSystem.

End MappingFacts.

Section DigestMore.
Import CStr Digest.

Variable sysconf_PAGESIZE : Z.
Variable sys_open : string -> sys nat.
Variable sys_fstat : nat -> sys Z.
Variable sys_mmap : nat -> Z -> sys (list byte).
Variable sys_munmap : list byte -> Z -> sys unit.
Variable SHA256 : list byte -> Z -> option (list byte).
Variable malloc : nat -> option string.
Variable ENOMEM ERANGE : Z.

(** [xbps_check_file_hash] returns 0 in two cases only: the digest was
    computed and is the expected string, or no digest was computed and
    [errno] was left at 0. *)
Theorem check_file_hash_zero (file sha256 : string) (errno : Z) :
  ERANGE <> 0%Z -> cstring sha256 ->
  (fst (xbps_check_file_hash sysconf_PAGESIZE sys_open sys_fstat sys_mmap
          sys_munmap SHA256 malloc ENOMEM ERANGE file sha256 errno) = 0%Z <->
   fst (xbps_get_file_hash sysconf_PAGESIZE sys_open sys_fstat sys_mmap
          sys_munmap SHA256 malloc ENOMEM file errno) = Some sha256 \/
   xbps_get_file_hash sysconf_PAGESIZE sys_open sys_fstat sys_mmap
     sys_munmap SHA256 malloc ENOMEM file errno = (None, 0%Z)).
Proof.
  intros HE Hs. unfold xbps_check_file_hash.
  destruct (xbps_get_file_hash _ _ _ _ _ _ _ _ file errno) as [[h|] e] eqn:E;
    simpl.
  - pose proof (get_file_hash_cstring _ _ _ _ _ _ _ _ _ _ _ _ E) as Hh.
    destruct (Z.eqb_spec (strcmp sha256 h) 0) as [Hz|Hz]; simpl.
    + apply strcmp_eq in Hz; [|assumption|assumption]. subst h.
      split; auto.
    + split; [contradiction|]. intros [[= ->]|[=]].
      now rewrite strcmp_refl in Hz.
  - split; [intros ->; now right | now intros [[=]|[= ->]]].
Qed.

(** For a file whose size is above [SSIZE_MAX - 1] no digest is computed
    and [errno] is not set, so [xbps_check_file_hash] returns the [errno]
    its caller had: 0, the value of a match, when that was 0. *)
Theorem oversized_file_returns_stale_errno
    (file sha256 : string) (errno : Z) (fd : nat) (st_size : Z) :
  sys_open file = Done fd -> sys_fstat fd = Done st_size ->
  (st_size > SSIZE_MAX - 1)%Z ->
  xbps_get_file_hash sysconf_PAGESIZE sys_open sys_fstat sys_mmap
    sys_munmap SHA256 malloc ENOMEM file errno = (None, errno) /\
  fst (xbps_check_file_hash sysconf_PAGESIZE sys_open sys_fstat sys_mmap
         sys_munmap SHA256 malloc ENOMEM ERANGE file sha256 errno) = errno.
Proof.
  intros Ho Hf Hsz.
  assert (H : xbps_get_file_hash sysconf_PAGESIZE sys_open sys_fstat sys_mmap
                sys_munmap SHA256 malloc ENOMEM file errno = (None, errno)).
  { unfold xbps_get_file_hash. rewrite Ho, Hf.
    destruct (Z.gtb_spec st_size (SSIZE_MAX - 1)); [reflexivity | lia]. }
  split; [assumption|]. unfold xbps_check_file_hash. now rewrite H.
Qed.

End DigestMore.

Section DigestMoreSamples.
Import CStr Digest.

Lemma get_file_hash_maps_whole_pages_witness :
  xbps_get_file_hash (2 ^ 12) Samples.sample_open Samples.sample_fstat
    (Mapping.checked_mmap (2 ^ 12) Samples.sample_fstat Samples.sample_mmap)
    Samples.sample_munmap Samples.sample_SHA256 Samples.sample_malloc
    Samples.ENOMEM "/tmp/hello" 0
  = xbps_get_file_hash (2 ^ 12) Samples.sample_open Samples.sample_fstat
      Samples.sample_mmap Samples.sample_munmap Samples.sample_SHA256
      Samples.sample_malloc Samples.ENOMEM "/tmp/hello" 0.
Proof.
  apply (get_file_hash_maps_whole_pages 12 Samples.sample_open
           Samples.sample_fstat Samples.sample_mmap Samples.sample_munmap
           Samples.sample_SHA256 Samples.sample_malloc Samples.ENOMEM
           "/tmp/hello" 0).
  - lia.
  - intros fd st_size [= <-]. lia.
Defined.

Lemma check_file_hash_zero_witness :
  fst (xbps_check_file_hash 4096 Samples.sample_open Samples.sample_fstat
         Samples.sample_mmap Samples.sample_munmap Samples.sample_SHA256
         Samples.sample_malloc Samples.ENOMEM Samples.ERANGE "/tmp/hello"
         Samples.hello_digest 0)
  = 0%Z.
Proof.
  apply (check_file_hash_zero 4096 Samples.sample_open Samples.sample_fstat
           Samples.sample_mmap Samples.sample_munmap Samples.sample_SHA256
           Samples.sample_malloc Samples.ENOMEM Samples.ERANGE "/tmp/hello"
           Samples.hello_digest 0).
  - unfold Samples.ERANGE. lia.
  - apply no_nul_cstring. reflexivity.
  - left. reflexivity.
Defined.

Lemma oversized_file_returns_stale_errno_witness :
  xbps_get_file_hash 4096 Samples.sample_open MoreSamples.huge_fstat
    Samples.sample_mmap Samples.sample_munmap Samples.sample_SHA256
    Samples.sample_malloc Samples.ENOMEM "/tmp/hello" 0 = (None, 0%Z) /\
  fst (xbps_check_file_hash 4096 Samples.sample_open MoreSamples.huge_fstat
         Samples.sample_mmap Samples.sample_munmap Samples.sample_SHA256
         Samples.sample_malloc Samples.ENOMEM Samples.ERANGE "/tmp/hello"
         "not the digest" 0)
  = 0%Z.
Proof.
  apply (oversized_file_returns_stale_errno 4096 Samples.sample_open
           MoreSamples.huge_fstat Samples.sample_mmap Samples.sample_munmap
           Samples.sample_SHA256 Samples.sample_malloc Samples.ENOMEM
           Samples.ERANGE "/tmp/hello" "not the digest" 0 3 (2 ^ 63 - 1)).
  - reflexivity.
  - reflexivity.
  - reflexivity.
Defined.

(** For a file without content the length passed to [munmap] is 0, which
    [munmap] refuses: the digest comes back, and [errno] is what [munmap]
    set. *)
Example empty_file_sets_errno :
  fst (xbps_get_file_hash 4096 Samples.sample_open MoreSamples.empty_fstat
         Samples.sample_mmap Samples.sample_munmap Samples.sample_SHA256
         Samples.sample_malloc Samples.ENOMEM "/tmp/hello" 0) <> None /\
  snd (xbps_get_file_hash 4096 Samples.sample_open MoreSamples.empty_fstat
         Samples.sample_mmap Samples.sample_munmap Samples.sample_SHA256
         Samples.sample_malloc Samples.ENOMEM "/tmp/hello" 0)
  = Samples.EINVAL.
Proof. split; [discriminate | reflexivity]. Qed.

End DigestMoreSamples.

(** ** Repository index path *)

Section IndexFacts.
Import CStr Location RepoIndex.

Variable malloc : nat -> option string.
Variable normalize : string -> option string.
Variable XBPS_META_PATH XBPS_PKGINDEX : string.

Lemma append_assoc (s t u : string) : (s +:+ t) +:+ u = s +:+ t +:+ u.
Proof.
  induction s as [|a s IH]; [reflexivity|].
  rewrite !append_cons. now rewrite IH.
Qed.

(** The index file of a remote repository lies under the root directory
    in force when the path is asked for: whatever configuration calls came
    before, the path is the text read at that moment through the pointer of
    the last [xbps_set_rootdir] (["/"] when there was none),
    [XBPS_META_PATH], the name the repository is stored under and
    [XBPS_PKGINDEX]. For a pointer to a string outside the static buffers
    of the cache directory that text is the string itself. No path is
    produced when [uname] fails, although the remote path has no machine
    name in it. *)
Theorem remote_index_follows_rootdir
    (PATH_MAX : Z) (XBPS_CACHE_PATH : string)
    (overlapping : string -> Z -> Config.source -> Config.source -> Z * string)
    (uri : string) (cs : list Config.call) :
  (forall m fixed,
     (forall n, is_Some (malloc n)) ->
     xbps_check_is_repo_string_remote uri = true ->
     normalize uri = Some fixed ->
     fst (xbps_get_pkg_index_plist malloc (Some m) normalize
            XBPS_META_PATH XBPS_PKGINDEX uri
            (Config.run PATH_MAX XBPS_CACHE_PATH overlapping cs
               Config.initial))
     = Some (Config.text_of
               (Config.run PATH_MAX XBPS_CACHE_PATH overlapping cs
                  Config.initial)
               (default (Config.Ext "/") (History.last_rootdir cs)) +:+ "/" +:+
             XBPS_META_PATH +:+ "/" +:+ fixed +:+ "/" +:+ XBPS_PKGINDEX) /\
     (forall d,
        default (Config.Ext "/") (History.last_rootdir cs) = Config.Ext d ->
        fst (xbps_get_pkg_index_plist malloc (Some m) normalize
               XBPS_META_PATH XBPS_PKGINDEX uri
               (Config.run PATH_MAX XBPS_CACHE_PATH overlapping cs
                  Config.initial))
        = Some (d +:+ "/" +:+ XBPS_META_PATH +:+ "/" +:+ fixed +:+ "/" +:+
                XBPS_PKGINDEX))) /\
  xbps_get_pkg_index_plist malloc None normalize
    XBPS_META_PATH XBPS_PKGINDEX uri
    (Config.run PATH_MAX XBPS_CACHE_PATH overlapping cs Config.initial)
  = (None, Config.run PATH_MAX XBPS_CACHE_PATH overlapping cs Config.initial).
Proof.
  split; [|reflexivity].
  intros m fixed Hm Hr Hn.
  assert (H : fst (xbps_get_pkg_index_plist malloc (Some m) normalize
                     XBPS_META_PATH XBPS_PKGINDEX uri
                     (Config.run PATH_MAX XBPS_CACHE_PATH overlapping cs
                        Config.initial))
              = Some (Config.text_of
                        (Config.run PATH_MAX XBPS_CACHE_PATH overlapping cs
                           Config.initial)
                        (default (Config.Ext "/") (History.last_rootdir cs))
                      +:+ "/" +:+ XBPS_META_PATH +:+ "/" +:+ fixed +:+ "/" +:+
                      XBPS_PKGINDEX)).
  { unfold xbps_get_pkg_index_plist, get_pkg_index_remote_plist.
    rewrite Hr, Hn.
    pose proof (get_rootdir_fst
                  (Config.run PATH_MAX XBPS_CACHE_PATH overlapping cs
                     Config.initial)) as Hf.
    pose proof (get_rootdir_text
                  (Config.run PATH_MAX XBPS_CACHE_PATH overlapping cs
                     Config.initial)) as Ht.
    rewrite (run_rootdir PATH_MAX XBPS_CACHE_PATH overlapping cs
               Config.initial) in Hf.
    destruct (Config.xbps_get_rootdir _) as [root st1].
    simpl in Hf, Ht. subst root.
    simpl. rewrite Ht. now rewrite xasprintf_total. }
  split; [assumption|]. intros d Hd. rewrite H, Hd. reflexivity.
Qed.

(** In a local repository the archive of a package built for the host's
    machine lies in the directory of the index file: both paths are the
    repository, the machine name and a file name, when the cache directory
    resolves and the allocations succeed. *)
Theorem local_archive_lies_beside_index
    (PATH_MAX : Z) (XBPS_CACHE_PATH : string)
    (overlapping : string -> Z -> Config.source -> Config.source -> Z * string)
    (pkgd : gmap string prop_object) (repoloc m f cdir : string)
    (st : Config.state) :
  (forall n, is_Some (malloc n)) ->
  xbps_check_is_repo_string_remote repoloc = false ->
  pkgd !! "architecture" = Some (PString m) ->
  pkgd !! "filename" = Some (PString f) ->
  Config.read_cachedir PATH_MAX XBPS_CACHE_PATH overlapping st = Some cdir ->
  let dir := repoloc +:+ "/" +:+ m +:+ "/" in
  fst (xbps_get_pkg_index_plist malloc (Some m) normalize
         XBPS_META_PATH XBPS_PKGINDEX repoloc st)
  = Some (dir +:+ XBPS_PKGINDEX) /\
  fst (xbps_get_binpkg_local_path malloc PATH_MAX XBPS_CACHE_PATH
         overlapping pkgd repoloc st)
  = Returns (Some (dir +:+ f)).
Proof.
  intros Hm Hloc Ha Hf Hc dir. subst dir. split.
  - unfold xbps_get_pkg_index_plist. rewrite Hloc. simpl.
    rewrite xasprintf_total by assumption.
    now rewrite !append_assoc.
  - unfold xbps_get_binpkg_local_path, Config.read_cachedir in *.
    destruct (Config.xbps_get_cachedir PATH_MAX XBPS_CACHE_PATH overlapping
                st) as [p st1].
    rewrite Hc, Hloc.
    rewrite (get_cstring_present pkgd "filename" f Indeterminate Hf).
    rewrite (get_cstring_present pkgd "architecture" m Indeterminate Ha).
    simpl. rewrite xasprintf_total by assumption.
    now rewrite !append_assoc.
Qed.

End IndexFacts.

Section IndexSamples.
Import CStr Location RepoIndex.

Lemma remote_index_follows_rootdir_witness :
  fst (xbps_get_pkg_index_plist Samples.sample_malloc (Some "x86_64")
         (fun _ => Some "http___repo_example_org_current")
         MoreSamples.XBPS_META_PATH MoreSamples.XBPS_PKGINDEX
         "http://repo.example.org/current"
         (Config.run Samples.PATH_MAX Samples.XBPS_CACHE_PATH
            Samples.forward_snprintf
            [Config.SetRootdir (Config.Ext "/mnt"); Config.GetCachedir]
            Config.initial))
  = Some "/mnt/var/db/xbps/http___repo_example_org_current/pkg-index.plist".
Proof.
  apply (proj2 (proj1 (remote_index_follows_rootdir Samples.sample_malloc
                         (fun _ => Some "http___repo_example_org_current")
                         MoreSamples.XBPS_META_PATH MoreSamples.XBPS_PKGINDEX
                         Samples.PATH_MAX Samples.XBPS_CACHE_PATH
                         Samples.forward_snprintf
                         "http://repo.example.org/current"
                         [Config.SetRootdir (Config.Ext "/mnt");
                          Config.GetCachedir])
                  "x86_64" "http___repo_example_org_current"
                  (fun n => ex_intro _ "" eq_refl) eq_refl eq_refl) "/mnt").
  reflexivity.
Defined.

Lemma local_archive_lies_beside_index_witness :
  fst (xbps_get_pkg_index_plist Samples.sample_malloc (Some "x86_64")
         (fun _ => None) MoreSamples.XBPS_META_PATH MoreSamples.XBPS_PKGINDEX
         "/srv/repo" Config.initial)
  = Some ("/srv/repo/x86_64/" +:+ MoreSamples.XBPS_PKGINDEX) /\
  fst (xbps_get_binpkg_local_path Samples.sample_malloc Samples.PATH_MAX
         Samples.XBPS_CACHE_PATH Samples.forward_snprintf Samples.full_record
         "/srv/repo" Config.initial)
  = Returns (Some ("/srv/repo/x86_64/" +:+ "foo-1.0.x86_64.xbps")).
Proof.
  apply (local_archive_lies_beside_index Samples.sample_malloc
           (fun _ => None) MoreSamples.XBPS_META_PATH
           MoreSamples.XBPS_PKGINDEX Samples.PATH_MAX
           Samples.XBPS_CACHE_PATH Samples.forward_snprintf
           Samples.full_record "/srv/repo"
           "x86_64" "foo-1.0.x86_64.xbps" "//var/cache/xbps" Config.initial).
  - intros n. exists "". reflexivity.
  - reflexivity.
  - reflexivity.
  - reflexivity.
  - reflexivity.
Defined.

Example index_path_samples :
  fst (xbps_get_pkg_index_plist Samples.sample_malloc (Some "x86_64")
         (fun _ => Some "http___repo_example_org_current")
         MoreSamples.XBPS_META_PATH MoreSamples.XBPS_PKGINDEX
         "http://repo.example.org/current" Config.initial)
  = Some "//var/db/xbps/http___repo_example_org_current/pkg-index.plist" /\
  fst (xbps_get_pkg_index_plist Samples.sample_malloc None
         (fun _ => Some "http___repo_example_org_current")
         MoreSamples.XBPS_META_PATH MoreSamples.XBPS_PKGINDEX
         "http://repo.example.org/current" Config.initial)
  = None.
Proof. repeat split. Qed.

End IndexSamples.
